(** * GRFN Pangeo demo notebook: a shallow embedding and its properties

    The notebook [notebooks/0-GRFN-demo.ipynb] is glue code around
    pandas, intake, xarray and rasterio.  The functions the notebook
    defines ([parse_name], [make_dataframe], [create_dataset],
    [get_src], [get_window], [save_current_view]) and the cells that
    build the mask and extract the time series are translated here
    line by line.  The library calls they make are modelled by small
    executable functions that follow the libraries' documented
    behaviour; each such model says so in its comment.

    Conventions.
    - Python exceptions are values of [exn]; fallible code lives in
      the [result] monad.
    - Floating-point coordinates and pixel values are idealised as
      exact rationals ([Q]); NaN is a separate pixel constructor.
    - A pandas DataFrame is a record of columns, an xarray object a
      record of dimension sizes, optional index coordinates and values,
      a raster profile a finite map from keys to values. *)

From Stdlib Require Import ZArith QArith Qround Qabs Lqa Lia.
From Stdlib Require Import String Ascii.
From stdpp Require Import base option list sorting strings gmap.

Local Close Scope Q_scope.
Local Open Scope string_scope.
Local Open Scope list_scope.
Local Open Scope Z_scope.

(** ** Exceptions and the result monad *)

Inductive exn : Type :=
  | ValueError
  | KeyError
  | IndexError
  | TypeError
  | AttributeError
  | InvalidIndexError
  | TransformError
  | RasterioIOError
  | OutsideModel.

Inductive result (A : Type) : Type :=
  | Ok (a : A)
  | Raise (e : exn).
Arguments Ok {A} a.
Arguments Raise {A} e.

Global Instance result_ret : MRet result := fun _ a => Ok a.
Global Instance result_bind : MBind result := fun _ _ f m =>
  match m with
  | Ok a => f a
  | Raise e => Raise e
  end.
Global Instance result_fmap : FMap result := fun _ _ f m =>
  match m with
  | Ok a => Ok (f a)
  | Raise e => Raise e
  end.

(** [Series.apply]: the function is applied to the elements in order and
    the first exception aborts the whole call. *)
Fixpoint apply {A B : Type} (f : A -> result B) (l : list A) : result (list B) :=
  match l with
  | [] => Ok []
  | a :: l' =>
      match f a with
      | Ok b =>
          match apply f l' with
          | Ok bs => Ok (b :: bs)
          | Raise e => Raise e
          end
      | Raise e => Raise e
      end
  end.

(** Element-wise binary operator on two columns of equal length. *)
Fixpoint apply2 {A B C : Type} (f : A -> B -> result C)
    (l1 : list A) (l2 : list B) : result (list C) :=
  match l1, l2 with
  | a :: l1', b :: l2' =>
      match f a b with
      | Ok c =>
          match apply2 f l1' l2' with
          | Ok cs => Ok (c :: cs)
          | Raise e => Raise e
          end
      | Raise e => Raise e
      end
  | _, _ => Ok []
  end.

(** ** Dates

    [datetime.strptime(s, '%Y%m%d')] yields a datetime at midnight; the
    difference of two of them is a whole number of days. The ordinal of a
    date follows CPython's [_ymd2ord]. *)

Record datetime : Type := mk_datetime { year : Z; month : Z; day : Z }.

Record timedelta : Type := mk_timedelta { days : Z }.

Definition is_leap (y : Z) : bool :=
  (y mod 4 =? 0) && (negb (y mod 100 =? 0) || (y mod 400 =? 0)).

Definition days_in_month (y m : Z) : Z :=
  if m =? 2 then (if is_leap y then 29 else 28)
  else if (m =? 4) || (m =? 6) || (m =? 9) || (m =? 11) then 30
  else 31.

Definition days_before_year (y : Z) : Z :=
  let y1 := y - 1 in
  y1 * 365 + y1 / 4 - y1 / 100 + y1 / 400.

Fixpoint days_before_month_aux (y : Z) (n : nat) : Z :=
  match n with
  | O => 0
  | S n' => days_before_month_aux y n' + days_in_month y (Z.of_nat n)
  end.

(** Number of days in the year [y] before the first day of month [m]. *)
Definition days_before_month (y m : Z) : Z :=
  days_before_month_aux y (Z.to_nat (m - 1)).

Definition toordinal (d : datetime) : Z :=
  days_before_year (year d) + days_before_month (year d) (month d) + day d.

(** [d1 - d2] on datetimes. *)
Definition datetime_sub (d1 d2 : datetime) : timedelta :=
  mk_timedelta (toordinal d1 - toordinal d2).

(** *** [strptime] for the format [%Y%m%d]

    The format compiles to the regular expression
    [(\d\d\d\d)(1[0-2]|0[1-9]|[1-9])(3[01]|[12]\d|0[1-9]|[1-9]| [1-9])],
    which has to match the whole string; alternatives are tried from left
    to right. The fields are then checked by the [datetime] constructor. *)

Definition digit_of (c : ascii) : option Z :=
  let n := Z.of_N (N_of_ascii c) in
  if (48 <=? n) && (n <=? 57) then Some (n - 48) else None.

Definition match_day (cs : list ascii) : option Z :=
  match cs with
  | [c1; c2] =>
      match digit_of c1, digit_of c2 with
      | Some d1, Some d2 =>
          if (d1 =? 3) && (d2 <=? 1) then Some (10 * d1 + d2)
          else if (1 <=? d1) && (d1 <=? 2) then Some (10 * d1 + d2)
          else if (d1 =? 0) && (1 <=? d2) then Some d2
          else None
      | None, Some d2 =>
          if (Ascii.eqb c1 " ") && (1 <=? d2) then Some d2 else None
      | _, _ => None
      end
  | [c1] =>
      match digit_of c1 with
      | Some d1 => if 1 <=? d1 then Some d1 else None
      | None => None
      end
  | _ => None
  end.

Definition match_month_day (cs : list ascii) : option (Z * Z) :=
  let two :=
    match cs with
    | c1 :: c2 :: rest =>
        match digit_of c1, digit_of c2 with
        | Some d1, Some d2 =>
            if ((d1 =? 1) && (d2 <=? 2)) || ((d1 =? 0) && (1 <=? d2))
            then match match_day rest with
                 | Some d => Some (10 * d1 + d2, d)
                 | None => None
                 end
            else None
        | _, _ => None
        end
    | _ => None
    end in
  match two with
  | Some md => Some md
  | None =>
      match cs with
      | c1 :: rest =>
          match digit_of c1 with
          | Some d1 =>
              if 1 <=? d1
              then match match_day rest with
                   | Some d => Some (d1, d)
                   | None => None
                   end
              else None
          | None => None
          end
      | [] => None
      end
  end.

Definition strptime_Ymd (s : string) : result datetime :=
  match list_ascii_of_string s with
  | y1 :: y2 :: y3 :: y4 :: rest =>
      match digit_of y1, digit_of y2, digit_of y3, digit_of y4 with
      | Some a, Some b, Some c, Some d =>
          match match_month_day rest with
          | Some (m, dd) =>
              let y := 1000 * a + 100 * b + 10 * c + d in
              if (1 <=? y) && (dd <=? days_in_month y m)
              then Ok (mk_datetime y m dd)
              else Raise ValueError
          | None => Raise ValueError
          end
      | _, _, _, _ => Raise ValueError
      end
  | _ => Raise ValueError
  end.

(** ** Catalog builder *)

(** What [reverse_format] stores for a field: the parsed datetime for a
    field with a [%]-format, and the raw text for the other fields and for
    a date field whose text [strptime] rejects. *)
Inductive value : Type :=
  | VStr (s : string)
  | VDate (d : datetime).

(** [Formatter().parse] of the pattern in [parse_name], one entry per
    replacement field: the literal text before the field, the field name
    and its format spec. *)
Definition pattern : list (string * string * string) :=
  [ ("", "project", "");
    ("/", "bucket", "");
    ("/", "date1", "%Y%m%d");
    ("-", "date2", "%Y%m%d");
    ("-", "format", "") ].

Definition endswith (text suffix : string) : bool :=
  let n := String.length text in
  let k := String.length suffix in
  (k <=? n)%nat && String.eqb (substring (n - k) k text) suffix.

(** [text.split(sep, 1)] for a separator that occurs in [text]. *)
Definition split_once (sep text : string) : option (string * string) :=
  match index 0 sep text with
  | Some p =>
      let k := String.length sep in
      Some (substring 0 p text,
            substring (p + k) (String.length text - (p + k)) text)
  | None => None
  end.

(** The loop of intake's [_get_parts_of_format_string] over the literal
    texts that follow the first field. All of them are non-empty in
    [pattern], so every step splits the remaining text at the first
    occurrence of the literal; an empty piece is not recorded. *)
Fixpoint split_literals (lits : list string) (text : string)
    : result (list string * string) :=
  match lits with
  | [] => Ok ([], text)
  | lit :: lits' =>
      match split_once lit text with
      | None => Raise ValueError
      | Some (bit, rest) =>
          match split_literals lits' rest with
          | Ok (bits, last) =>
              Ok (if String.eqb bit "" then bits else bit :: bits, last)
          | Raise e => Raise e
          end
      end
  end.

Definition get_parts (resolved : string) (pat : list (string * string * string))
    : result (list string) :=
  let lits := map (fun p => fst (fst p)) pat in
  let last_lit := List.last lits "" in
  let '(text, lits) :=
    if negb (String.eqb last_lit "") && endswith resolved last_lit
    then (substring 0 (String.length resolved - String.length last_lit) resolved,
          removelast lits)
    else (resolved, lits) in
  match split_literals (tl lits) text with
  | Ok (bits, rest) => Ok (if String.eqb rest "" then bits else bits ++ [rest])
  | Raise e => Raise e
  end.

(** Conversion of the piece found for a field. *)
Definition convert_field (spec bit : string) : value :=
  if String.prefix "%" spec
  then match strptime_Ymd bit with
       | Ok d => VDate d
       | Raise _ => VStr bit
       end
  else VStr bit.

Fixpoint fill_fields (pat : list (string * string * string)) (bits : list string)
    (args : gmap string value) : result (gmap string value) :=
  match pat with
  | [] => Ok args
  | (_, field_name, spec) :: pat' =>
      match bits with
      | [] => Raise IndexError
      | bit :: bits' =>
          fill_fields pat' bits' (<[field_name := convert_field spec bit]> args)
      end
  end.

(** [intake.source.utils.reverse_format], following its documented
    contract: the arguments that formatting [pat] would need to produce
    [resolved]. *)
Definition reverse_format (pat : list (string * string * string)) (resolved : string)
    : result (gmap string value) :=
  bits ← get_parts resolved pat;
  fill_fields pat bits ∅.

Definition parse_name (gsPath : string) (key : string) : result value :=
  parsed ← reverse_format pattern gsPath;
  match parsed !! key with
  | Some val => Ok val
  | None => Raise KeyError
  end.

(** [date1 - date2] on two cells of the date columns. *)
Definition value_sub (v1 v2 : value) : result timedelta :=
  match v1, v2 with
  | VDate d1, VDate d2 => Ok (datetime_sub d1 d2)
  | _, _ => Raise TypeError
  end.

(** Order of [sort_values] on a column of strings. *)
Definition str_le (s1 s2 : string) : Prop := String.leb s1 s2 = true.

Global Instance str_le_dec : RelDecision str_le.
Proof. intros s1 s2. unfold str_le. apply _. Defined.

Global Instance str_le_total : Total str_le.
Proof. intros s1 s2. apply String.leb_total. Qed.

(** The DataFrame of the catalog, one list per column. *)
Record DataFrame : Type := mk_DataFrame {
  gs : list string;
  url : list string;
  date1 : list value;
  date2 : list value;
  dt : list timedelta
}.

Definition len (df : DataFrame) : nat := length (gs df).

Definition make_dataframe (images : list string) : result DataFrame :=
  let gs := merge_sort str_le images in
  let url := map (fun g => "http://storage.googleapis.com/" +:+ g) gs in
  date1 ← apply (fun g => parse_name g "date1") gs;
  date2 ← apply (fun g => parse_name g "date2") gs;
  dt ← apply2 value_sub date1 date2;
  Ok (mk_DataFrame gs url date1 date2 dt).

Definition scenario_keys : list string :=
  [ "p/b/20200101-20200115-unw.tif"; "p/b/20200201-20200215-unw.tif" ].


(** ** Rasters (rasterio)

    The datasets are north-up GeoTIFFs: the affine transform is
    rectilinear (no rotation terms), which is also what [open_rasterio]
    requires to produce one-dimensional [x] and [y] coordinates. *)

Inductive pixel : Type :=
  | NaN
  | Num (v : Q).

(** A two-dimensional array, as a list of rows. *)
Abbreviation ndarray2 A := (list (list A)) (only parsing).

Definition shape2 {A : Type} (arr : ndarray2 A) : nat * nat :=
  (length arr, match arr with [] => O | row :: _ => length row end).

Definition getitem2 {A : Type} (dflt : A) (arr : ndarray2 A) (r c : nat) : A :=
  nth c (nth r arr []) dflt.

Module Affine.
(** Pixel [(col, row)] maps to [(c + a * col, f + e * row)]. *)
Record t : Type := mk { a : Q; c : Q; e : Q; f : Q }.

Definition apply (tr : t) (col row : Q) : Q * Q :=
  ((c tr + a tr * col)%Q, (f tr + e tr * row)%Q).

Definition is_degenerate (tr : t) : bool :=
  Qeq_bool (a tr) 0 || Qeq_bool (e tr) 0.

(** [~tr * (x, y)] *)
Definition apply_inverse (tr : t) (x y : Q) : Q * Q :=
  (((x - c tr) / a tr)%Q, ((y - f tr) / e tr)%Q).

(** [tr * Affine.translation(xoff, yoff)] *)
Definition translate (tr : t) (xoff yoff : Q) : t :=
  mk (a tr) (c tr + a tr * xoff)%Q (e tr) (f tr + e tr * yoff)%Q.

Definition eqb (t1 t2 : t) : bool :=
  Qeq_bool (a t1) (a t2) && Qeq_bool (c t1) (c t2)
  && Qeq_bool (e t1) (e t2) && Qeq_bool (f t1) (f t2).
End Affine.

Module rasterio.

(** An opened dataset: its header and its bands. *)
Record DatasetReader : Type := mk_DatasetReader {
  name : string;
  driver : string;
  dtype : string;
  nodata : option pixel;
  width : nat;
  height : nat;
  count : nat;
  crs : string;
  transform : Affine.t;
  blockxsize : Z;
  blockysize : Z;
  tiled : bool;
  compress : option string;
  interleave : option string;
  bands : list (ndarray2 pixel)
}.

(** Values of the keys of a profile. *)
Inductive pval : Type :=
  | PStr (s : string)
  | PInt (n : Z)
  | PBool (b : bool)
  | PNodata (v : option pixel)
  | PTransform (tr : Affine.t).

Definition set_opt (k : string) (o : option string) (m : gmap string pval)
    : gmap string pval :=
  match o with
  | Some s => <[k := PStr s]> m
  | None => m
  end.

(** [src.profile] *)
Definition profile (src : DatasetReader) : gmap string pval :=
  set_opt "interleave" (interleave src)
    (set_opt "compress" (compress src)
      (<["tiled" := PBool (tiled src)]>
        (<["blockysize" := PInt (blockysize src)]>
          (<["blockxsize" := PInt (blockxsize src)]>
            (<["transform" := PTransform (transform src)]>
              (<["crs" := PStr (crs src)]>
                (<["count" := PInt (Z.of_nat (count src))]>
                  (<["height" := PInt (Z.of_nat (height src))]>
                    (<["width" := PInt (Z.of_nat (width src))]>
                      (<["nodata" := PNodata (nodata src)]>
                        (<["dtype" := PStr (dtype src)]>
                          (<["driver" := PStr (driver src)]> ∅)))))))))))).

(** [rasterio.open(url)] against the remote store; the name of the
    opened dataset is the path it was opened with. *)
Definition open (store : gmap string DatasetReader) (url : string)
    : result DatasetReader :=
  match store !! url with
  | Some src =>
      Ok {| name := url; driver := driver src; dtype := dtype src;
            nodata := nodata src; width := width src; height := height src;
            count := count src; crs := crs src; transform := transform src;
            blockxsize := blockxsize src; blockysize := blockysize src;
            tiled := tiled src; compress := compress src;
            interleave := interleave src; bands := bands src |}
  | None => Raise RasterioIOError
  end.

(** [src.bounds]: (left, bottom, right, top) *)
Definition bounds (src : DatasetReader) : Q * Q * Q * Q :=
  let tr := transform src in
  (Affine.c tr,
   (Affine.f tr + Affine.e tr * inject_Z (Z.of_nat (height src)))%Q,
   (Affine.c tr + Affine.a tr * inject_Z (Z.of_nat (width src)))%Q,
   Affine.f tr).

(** [src.index(x, y)]: the (row, col) of the pixel containing [(x, y)],
    the floor of the inverse transform. *)
Definition index (src : DatasetReader) (x y : Q) : result (Z * Z) :=
  let tr := transform src in
  if Affine.is_degenerate tr then Raise TransformError
  else
    let '(fcol, frow) := Affine.apply_inverse tr x y in
    Ok (Qfloor frow, Qfloor fcol).

Module windows.
Record Window : Type :=
  mk_Window { col_off : Z; row_off : Z; width : Z; height : Z }.

(** The constructor rejects a negative length. *)
Definition Window_ (col_off row_off width height : Z) : result Window :=
  if (width <? 0) || (height <? 0) then Raise ValueError
  else Ok (mk_Window col_off row_off width height).

(** [crop(window, height, width)] *)
Definition crop (w : Window) (h wd : Z) : Window :=
  let row_start := Z.min (Z.max (row_off w) 0) h in
  let col_start := Z.min (Z.max (col_off w) 0) wd in
  let row_stop := Z.max 0 (Z.min (row_off w + height w) h) in
  let col_stop := Z.max 0 (Z.min (col_off w + width w) wd) in
  mk_Window col_start row_start (col_stop - col_start) (row_stop - row_start).
End windows.

(** [src.window_transform(window)] *)
Definition window_transform (src : DatasetReader) (w : windows.Window) : Affine.t :=
  Affine.translate (transform src)
    (inject_Z (windows.col_off w)) (inject_Z (windows.row_off w)).

Definition slice {A : Type} (start len : Z) (l : list A) : list A :=
  take (Z.to_nat len) (drop (Z.to_nat start) l).

(** [src.read(indexes, window=window)] for one band index (1-based);
    the read is not boundless, so the window is first cropped to the
    extent of the dataset. *)
Definition read (src : DatasetReader) (indexes : nat) (w : windows.Window)
    : result (ndarray2 pixel) :=
  match indexes with
  | O => Raise IndexError
  | S i =>
      match bands src !! i with
      | None => Raise IndexError
      | Some arr =>
          let w' := windows.crop w (Z.of_nat (height src)) (Z.of_nat (width src)) in
          Ok (map (slice (windows.col_off w') (windows.width w'))
                  (slice (windows.row_off w') (windows.height w') arr))
      end
  end.

(** [src.read(indexes)] of a whole band. *)
Definition read_band (src : DatasetReader) (indexes : nat) : result (ndarray2 pixel) :=
  match indexes with
  | O => Raise IndexError
  | S i =>
      match bands src !! i with
      | None => Raise IndexError
      | Some arr => Ok arr
      end
  end.

(** A written local raster: the creation options and the band. *)
Record LocalRaster : Type := mk_LocalRaster {
  kwargs : gmap string pval;
  band1 : ndarray2 pixel
}.

(** Coordinates of the centre of pixel [(row, col)]. *)
Definition xy (src : DatasetReader) (row col : nat) : Q * Q :=
  Affine.apply (transform src)
    (inject_Z (Z.of_nat col) + (1 # 2))%Q (inject_Z (Z.of_nat row) + (1 # 2))%Q.

(** [rasterio.features.geometry_mask]: true for the pixels whose centre
    is outside the shapes. A collection of shapes is given by its
    point-membership test in the coordinate system of the raster. *)
Definition geometry_mask (shapes : Q -> Q -> bool) (src : DatasetReader)
    : ndarray2 bool :=
  map (fun row =>
         map (fun col => let '(x, y) := xy src row col in negb (shapes x y))
             (seq 0 (width src)))
      (seq 0 (height src)).

Definition map2d2 {A B C : Type} (g : A -> B -> C) (m1 : ndarray2 A) (m2 : ndarray2 B)
    : ndarray2 C :=
  zip_with (zip_with g) m1 m2.

(** [rasterio.mask.mask(src, shapes, indexes=1)]: the band with the
    pixels outside the shapes replaced by the fill value, which is the
    nodata value of the dataset, or 0 when it has none. *)
Definition mask (src : DatasetReader) (shapes : Q -> Q -> bool) (indexes : nat)
    : result (ndarray2 pixel) :=
  let fill := match nodata src with Some v => v | None => Num 0 end in
  match read_band src indexes with
  | Ok arr =>
      Ok (map2d2 (fun (outside : bool) (v : pixel) => if outside then fill else v)
            (geometry_mask shapes src) arr)
  | Raise e => Raise e
  end.

End rasterio.

(** ** Label lookup on a pandas index *)

Module pd.

Definition Qltb (p q : Q) : bool := negb (Qle_bool q p).

Fixpoint is_strictly_increasing (l : list Q) : bool :=
  match l with
  | p :: ((q :: _) as l') => Qltb p q && is_strictly_increasing l'
  | _ => true
  end.

Fixpoint is_strictly_decreasing (l : list Q) : bool :=
  match l with
  | p :: ((q :: _) as l') => Qltb q p && is_strictly_decreasing l'
  | _ => true
  end.

Fixpoint is_unique (l : list Q) : bool :=
  match l with
  | [] => true
  | p :: l' => negb (existsb (Qeq_bool p) l') && is_unique l'
  end.

(** Number of leading labels that satisfy [p]: on a monotonic index,
    the insertion point that [searchsorted] finds. *)
Fixpoint searchsorted (p : Q -> bool) (l : list Q) : nat :=
  match l with
  | [] => O
  | v :: l' => if p v then S (searchsorted p l') else O
  end.

(** Position of the last label at or before the target, in index order. *)
Definition pad (increasing : bool) (index : list Q) (target : Q) : option nat :=
  let n :=
    searchsorted
      (fun v => if increasing then Qle_bool v target else Qle_bool target v) index in
  match n with
  | O => None
  | S n' => Some n'
  end.

(** Position of the first label at or after the target, in index order. *)
Definition backfill (increasing : bool) (index : list Q) (target : Q) : option nat :=
  let n :=
    searchsorted
      (fun v => if increasing then Qltb v target else Qltb target v) index in
  if (n <? length index)%nat then Some n else None.

Definition distance (index : list Q) (i : nat) (target : Q) : Q :=
  Qabs (nth i index 0%Q - target).

(** [Index.get_loc(target, method='nearest')]: the closer of the two
    neighbours; on a tie the one with the larger label. No tolerance is
    given, so a target beyond either end of the index is matched too. *)
Definition get_loc_nearest (index : list Q) (target : Q) : result nat :=
  if negb (is_unique index) then Raise InvalidIndexError
  else
    let increasing := is_strictly_increasing index in
    if negb increasing && negb (is_strictly_decreasing index) then Raise ValueError
    else
      match pad increasing index target, backfill increasing index target with
      | Some l, Some r =>
          let dl := distance index l target in
          let dr := distance index r target in
          if (if increasing then Qltb dl dr else Qle_bool dl dr) then Ok l else Ok r
      | Some l, None => Ok l
      | None, Some r => Ok r
      | None, None => Raise KeyError
      end.

End pd.

(** ** Labelled arrays (xarray) *)

Module xr.

(** A dataset with the data variable [unw] on the dimensions
    [(band, y, x)]. The dimensions [y] and [x] have an index only when
    the coordinates were parsed. [mask] is the optional coordinate
    layer on [(y, x)]. *)
Record Dataset : Type := mk_Dataset {
  sizes : nat * nat * nat;
  band : list Z;
  y : option (list Q);
  x : option (list Q);
  mask : option (ndarray2 bool);
  unw : list (ndarray2 pixel);
  attrs : gmap string rasterio.pval
}.

Definition pixel_centres (origin step : Q) (n : nat) : list Q :=
  map (fun i => (origin + step * (inject_Z (Z.of_nat i) + (1 # 2)))%Q) (seq 0 n).

(** The labelled array that [open_rasterio] builds from the header of an
    opened dataset; the values stay lazy. *)
Definition of_reader (riods : rasterio.DatasetReader) (parse_coordinates : bool)
    : Dataset :=
  let tr := rasterio.transform riods in
  let ny := rasterio.height riods in
  let nx := rasterio.width riods in
  {| sizes := (rasterio.count riods, ny, nx);
     band := map Z.of_nat (seq 1 (rasterio.count riods));
     y := if parse_coordinates
          then Some (pixel_centres (Affine.f tr) (Affine.e tr) ny) else None;
     x := if parse_coordinates
          then Some (pixel_centres (Affine.c tr) (Affine.a tr) nx) else None;
     mask := None;
     unw := rasterio.bands riods;
     attrs := <["transform" := rasterio.PTransform tr]>
                (<["crs" := rasterio.PStr (rasterio.crs riods)]> ∅) |}.

(** [xr.open_rasterio(url, parse_coordinates, chunks).to_dataset(name='unw')] *)
Definition open_rasterio (store : gmap string rasterio.DatasetReader) (url : string)
    (parse_coordinates : bool) : result Dataset :=
  riods ← rasterio.open store url;
  if (rasterio.count riods <? 1)%nat then Raise ValueError
  else Ok (of_reader riods parse_coordinates).

Definition index_equal (i1 i2 : list Q) : bool :=
  (length i1 =? length i2)%nat && forallb (fun p => Qeq_bool (fst p) (snd p)) (zip i1 i2).

(** Alignment of one dimension: objects without an index must have the
    size of the index of the objects that have one, and the same size
    among themselves. Objects with different indexes would be
    outer-joined, which [create_dataset] never asks for. *)
Definition align_dim (indexes : list (option (list Q))) (dim_sizes : list nat)
    : result (option (list Q)) :=
  match omap id indexes with
  | [] =>
      match dim_sizes with
      | n :: ns => if forallb (Nat.eqb n) ns then Ok None else Raise ValueError
      | [] => Ok None
      end
  | idx :: others =>
      if negb (forallb (index_equal idx) others) then Raise OutsideModel
      else if forallb (Nat.eqb (length idx)) dim_sizes then Ok (Some idx)
      else Raise ValueError
  end.

Definition pval_eqb (v1 v2 : rasterio.pval) : bool :=
  match v1, v2 with
  | rasterio.PStr s1, rasterio.PStr s2 => String.eqb s1 s2
  | rasterio.PInt n1, rasterio.PInt n2 => Z.eqb n1 n2
  | rasterio.PBool b1, rasterio.PBool b2 => Bool.eqb b1 b2
  | rasterio.PTransform t1, rasterio.PTransform t2 => Affine.eqb t1 t2
  | rasterio.PNodata (Some (Num q1)), rasterio.PNodata (Some (Num q2)) => Qeq_bool q1 q2
  | rasterio.PNodata None, rasterio.PNodata None => true
  | _, _ => false
  end.

(** Attributes of the first object that the other one does not share
    are dropped. *)
Definition remove_incompatible_items (first second : gmap string rasterio.pval)
    : gmap string rasterio.pval :=
  map_imap (fun k v =>
              match second !! k with
              | Some v' => if pval_eqb v v' then Some v else None
              | None => None
              end) first.

(** [xr.concat(datasets, dim='band')] *)
Definition concat (datasets : list Dataset) : result Dataset :=
  match datasets with
  | [] => Raise ValueError
  | first :: rest =>
      if existsb (fun ds => bool_decide (is_Some (mask ds))) datasets
      then Raise OutsideModel
      else
        y' ← align_dim (map y datasets) (map (fun ds => snd (fst (sizes ds))) datasets);
        x' ← align_dim (map x datasets) (map (fun ds => snd (sizes ds)) datasets);
        Ok {| sizes := (sum_list (map (fun ds => fst (fst (sizes ds))) datasets),
                        snd (fst (sizes first)), snd (sizes first));
              band := List.concat (map band datasets);
              y := y';
              x := x';
              mask := None;
              unw := List.concat (map unw datasets);
              attrs := foldl remove_incompatible_items (attrs first) (map attrs rest) |}
  end.

(** [ds.coords['band'] = labels] *)
Definition set_band (ds : Dataset) (labels : list Z) : result Dataset :=
  if (length labels =? fst (fst (sizes ds)))%nat
  then Ok {| sizes := sizes ds; band := labels; y := y ds; x := x ds;
             mask := mask ds; unw := unw ds; attrs := attrs ds |}
  else Raise ValueError.

Definition has_shape {A : Type} (arr : ndarray2 A) (ny nx : nat) : bool :=
  (length arr =? ny)%nat && forallb (fun row => (length row =? nx)%nat) arr.

(** [ds.coords['mask'] = (('y', 'x'), layer)] *)
Definition set_mask (ds : Dataset) (layer : ndarray2 bool) : result Dataset :=
  if has_shape layer (snd (fst (sizes ds))) (snd (sizes ds))
  then Ok {| sizes := sizes ds; band := band ds; y := y ds; x := x ds;
             mask := Some layer; unw := unw ds; attrs := attrs ds |}
  else Raise ValueError.

(** [ds.mask] *)
Definition get_mask (ds : Dataset) : result (ndarray2 bool) :=
  match mask ds with
  | Some m => Ok m
  | None => Raise AttributeError
  end.

(** [layer == False] *)
Definition eq_False (layer : ndarray2 bool) : ndarray2 bool :=
  map (map negb) layer.

(** [ds.where(cond)] for a condition on [(y, x)]: the values are kept
    where the condition holds and become NaN elsewhere, on every band. *)
Definition where_ (ds : Dataset) (cond : ndarray2 bool) : Dataset :=
  {| sizes := sizes ds; band := band ds; y := y ds; x := x ds;
     mask := mask ds;
     unw := map (fun arr =>
                   rasterio.map2d2 (fun (v : pixel) (keep : bool) =>
                                      if keep then v else NaN) arr cond)
                (unw ds);
     attrs := attrs ds |}.

Definition isnan (v : pixel) : bool :=
  match v with
  | NaN => true
  | Num _ => false
  end.

(** Number of missing values of [unw]. *)
Definition count_missing (ds : Dataset) : nat :=
  sum_list (map (fun arr => sum_list (map (fun row => length (filter (fun v => isnan v = true) row)) arr))
                (unw ds)).

(** The result of selecting one [(y, x)] position: the remaining
    dimension is [band]. *)
Record PointSeries : Type := mk_PointSeries {
  ps_band : list Z;
  ps_y : Q;
  ps_x : Q;
  ps_iy : nat;
  ps_ix : nat;
  ps_unw : list pixel
}.

(** [ds.sel(x=xcen, y=ycen, method='nearest')] *)
Definition sel_nearest (ds : Dataset) (xcen ycen : Q) : result PointSeries :=
  match x ds, y ds with
  | Some xs, Some ys =>
      ix ← pd.get_loc_nearest xs xcen;
      iy ← pd.get_loc_nearest ys ycen;
      Ok {| ps_band := band ds;
            ps_y := nth iy ys 0%Q;
            ps_x := nth ix xs 0%Q;
            ps_iy := iy;
            ps_ix := ix;
            ps_unw := map (fun arr => getitem2 NaN arr iy ix) (unw ds) |}
  | _, _ => Raise ValueError
  end.

End xr.

(** ** The cells of the notebook *)

(** *** Lazy array loader *)

(** [df.url[0]] *)
Definition url_0 (df : DataFrame) : result string :=
  match url df with
  | u :: _ => Ok u
  | [] => Raise KeyError
  end.

Definition create_dataset (df : DataFrame) (store : gmap string rasterio.DatasetReader)
    : result xr.Dataset :=
  url0 ← url_0 df;
  da ← xr.open_rasterio store url0 true;
  rest ← apply (fun url => xr.open_rasterio store url false) (tl (url df));
  let datasets := da :: rest in
  ds ← xr.concat datasets;
  xr.set_band ds (map Z.of_nat (seq 0 (len df))).

(** *** Mask applier *)

(** [out_image == 0] *)
Definition eq_zero (v : pixel) : bool :=
  match v with
  | NaN => false
  | Num q => Qeq_bool q 0
  end.

(** [df.url.iloc[i]] *)
Definition url_iloc (df : DataFrame) (i : nat) : result string :=
  match url df !! i with
  | Some u => Ok u
  | None => Raise IndexError
  end.

(** The vector layer [gf] is given by the point-membership test of its
    geometry in each coordinate reference system, so that
    [gf.to_crs(src.crs)] is [gf (crs src)]. *)
Definition water (df : DataFrame) (store : gmap string rasterio.DatasetReader)
    (gf : string -> Q -> Q -> bool) : result (ndarray2 bool) :=
  url0 ← url_iloc df 0;
  src ← rasterio.open store url0;
  let projected := gf (rasterio.crs src) in
  out_image ← rasterio.mask src projected 1;
  Ok (map (map eq_zero) out_image).

(** [ds.where(ds.mask == False)] *)
Definition where_mask_False (ds : xr.Dataset) : result xr.Dataset :=
  m ← xr.get_mask ds;
  Ok (xr.where_ ds (xr.eq_False m)).

(** The cell that attaches the mask: the updated [DS] and [DSmasked]. *)
Definition add_mask (df : DataFrame) (store : gmap string rasterio.DatasetReader)
    (gf : string -> Q -> Q -> bool) (DS : xr.Dataset) : result (xr.Dataset * xr.Dataset) :=
  w ← water df store gf;
  DS' ← xr.set_mask DS w;
  DSmasked ← where_mask_False DS';
  Ok (DS', DSmasked).

(** *** View state *)

Record RangeXY : Type := mk_RangeXY {
  x_range : option (Q * Q);
  y_range : option (Q * Q)
}.

(** The displayed plot: the key of the displayed band and the range
    stream [img.streams[1]]. *)
Record DynamicMap : Type := mk_DynamicMap {
  callback_args : nat;
  streams_1 : RangeXY
}.

(** *** Region extractor *)

Definition get_src (df : DataFrame) (img : DynamicMap) : result string :=
  let image_no := callback_args img in
  url_iloc df image_no.

Definition get_window (img : DynamicMap) (src : rasterio.DatasetReader)
    : result rasterio.windows.Window :=
  let limits := streams_1 img in
  bounds ←
    match x_range limits with
    | None => Ok (rasterio.bounds src)
    | Some xr_ =>
        match y_range limits with
        | Some yr => Ok (fst xr_, fst yr, snd xr_, snd yr)
        | None => Raise TypeError
        end
    end;
  let '(b0, b1, b2, b3) := bounds in
  '(uly, ulx) ← rasterio.index src b0 b3;
  '(lry, lrx) ← rasterio.index src b2 b1;
  let width := lrx - ulx in
  let height := lry - uly in
  rasterio.windows.Window_ ulx uly width height.

(** [os.path.basename] *)
Fixpoint basename_aux (cs acc : list ascii) : list ascii :=
  match cs with
  | [] => acc
  | ch :: cs' => if Ascii.eqb ch "/" then basename_aux cs' [] else basename_aux cs' (acc ++ [ch])
  end.

Definition basename (path : string) : string :=
  string_of_list_ascii (basename_aux (list_ascii_of_string path) []).

(** [rasterio.open(localname, 'w', **profile)] followed by
    [dst.write_band(1, data)]: a raster without rows or columns cannot be
    created. *)
Definition write_raster (fs : gmap string rasterio.LocalRaster) (localname : string)
    (profile : gmap string rasterio.pval) (data : ndarray2 pixel)
    : result (gmap string rasterio.LocalRaster) :=
  match profile !! "height", profile !! "width" with
  | Some (rasterio.PInt h), Some (rasterio.PInt w) =>
      if (h <=? 0) || (w <=? 0) then Raise RasterioIOError
      else Ok (<[localname := rasterio.mk_LocalRaster profile data]> fs)
  | _, _ => Raise TypeError
  end.

(** [profile.update({...})] in [save_current_view] *)
Definition update_profile (profile : gmap string rasterio.pval) (data : ndarray2 pixel)
    (win_transform : Affine.t) : gmap string rasterio.pval :=
  <["transform" := rasterio.PTransform win_transform]>
    (<["blockysize" := rasterio.PInt 256]>
      (<["blockxsize" := rasterio.PInt 256]>
        (<["width" := rasterio.PInt (Z.of_nat (snd (shape2 data)))]>
          (<["height" := rasterio.PInt (Z.of_nat (fst (shape2 data)))]>
            (<["dtype" := rasterio.PStr "float32"]> profile))))).

(** The local files are threaded through as a map from file name to
    raster. *)
Definition save_current_view (df : DataFrame) (store : gmap string rasterio.DatasetReader)
    (img : DynamicMap) (fs : gmap string rasterio.LocalRaster)
    : result (string * gmap string rasterio.LocalRaster) :=
  image_url ← get_src df img;
  src ← rasterio.open store image_url;
  let profile := rasterio.profile src in
  window ← get_window img src;
  let win_transform := rasterio.window_transform src window in
  data ← rasterio.read src 1 window;
  let profile := update_profile profile data win_transform in
  let localname := "subset-" +:+ basename (rasterio.name src) in
  fs' ← write_raster fs localname profile data;
  Ok (localname, fs').

(** *** Series extractor *)

(** [ds.sel(x=xcen, y=ycen, method='nearest').compute()] *)
Definition time_series (ds : xr.Dataset) (xcen ycen : Q) : result xr.PointSeries :=
  xr.sel_nearest ds xcen ycen.

(** ** Scenarios used by the examples *)

(** The scenario of the specification, with the date delta of the first
    row left open. *)
Definition scenario_catalog (delta : Z) : Prop :=
  exists df,
    make_dataframe scenario_keys = Ok df /\
    len df = 2%nat /\
    date1 df = [VDate (mk_datetime 2020 1 1); VDate (mk_datetime 2020 2 1)] /\
    Sorted str_le (gs df) /\
    dt df !! 0%nat = Some (mk_timedelta delta).


(** The catalog of the scenario. *)
Definition scenario_df : DataFrame :=
  {| gs := scenario_keys;
     url := [ "http://storage.googleapis.com/p/b/20200101-20200115-unw.tif";
              "http://storage.googleapis.com/p/b/20200201-20200215-unw.tif" ];
     date1 := [VDate (mk_datetime 2020 1 1); VDate (mk_datetime 2020 2 1)];
     date2 := [VDate (mk_datetime 2020 1 15); VDate (mk_datetime 2020 2 15)];
     dt := [mk_timedelta (-14); mk_timedelta (-14)] |}.

(** A single-band float32 GeoTIFF in UTM zone 5N. *)
Definition geotiff (tr : Affine.t) (nodata : option pixel) (h w : nat)
    (values : ndarray2 pixel) : rasterio.DatasetReader :=
  {| rasterio.name := "";
     rasterio.driver := "GTiff";
     rasterio.dtype := "float32";
     rasterio.nodata := nodata;
     rasterio.width := w;
     rasterio.height := h;
     rasterio.count := 1;
     rasterio.crs := "EPSG:32605";
     rasterio.transform := tr;
     rasterio.blockxsize := 512;
     rasterio.blockysize := 512;
     rasterio.tiled := true;
     rasterio.compress := Some "deflate";
     rasterio.interleave := Some "band";
     rasterio.bands := [values] |}.

(** 30 m pixels, upper left corner at (1000, 5000). *)
Definition grid_a : Affine.t := Affine.mk 30 1000 (-30) 5000.

(** The same pixel size with the upper left corner at (4000, 9000). *)
Definition grid_b : Affine.t := Affine.mk 30 4000 (-30) 9000.

Definition image_1 : rasterio.DatasetReader :=
  geotiff grid_a None 2 3
    [ [Num 100; Num 101; Num 102]; [Num 110; Num 111; Num 112] ].

Definition image_2 : rasterio.DatasetReader :=
  geotiff grid_a None 2 3
    [ [Num 200; Num 201; Num 202]; [Num 210; Num 211; Num 212] ].

(** [image_2] on another grid of the same shape. *)
Definition image_2_shifted : rasterio.DatasetReader :=
  geotiff grid_b None 2 3
    [ [Num 200; Num 201; Num 202]; [Num 210; Num 211; Num 212] ].

Definition store_of (im1 im2 : rasterio.DatasetReader) : gmap string rasterio.DatasetReader :=
  <["http://storage.googleapis.com/p/b/20200101-20200115-unw.tif" := im1]>
    (<["http://storage.googleapis.com/p/b/20200201-20200215-unw.tif" := im2]> ∅).

(** A land pixel whose phase value is exactly zero. *)
Definition image_zero : rasterio.DatasetReader :=
  geotiff grid_a None 1 2 [ [Num 0; Num 5] ].

(** A vector layer that covers the whole plane in every coordinate
    reference system. *)
Definition everywhere : string -> Q -> Q -> bool := fun _ _ _ => true.

(** A vector layer whose polygon is the half plane [x <= 1070]. *)
Definition west_of_1070 : string -> Q -> Q -> bool := fun _ x _ => Qle_bool x 1070.

(** A view of the first image zoomed inside the raster. *)
Definition view_inside : DynamicMap :=
  mk_DynamicMap 0 (mk_RangeXY (Some (1040%Q, 1080%Q)) (Some (4950%Q, 4990%Q))).



(** ** Vocabulary of the statements about index lookup *)

(** Order of two labels in the direction of the index. *)
Definition ord (increasing : bool) (u v : Q) : Prop :=
  if increasing then (u <= v)%Q else (v <= u)%Q.

Definition sord (increasing : bool) (u v : Q) : Prop :=
  if increasing then (u < v)%Q else (v < u)%Q.

Definition monotonic (increasing : bool) (index : list Q) : bool :=
  if increasing then pd.is_strictly_increasing index
  else pd.is_strictly_decreasing index.

(** [i] is a position of [index] whose label is at least as close to
    [target] as every other label. *)
Definition is_nearest (index : list Q) (target : Q) (i : nat) : Prop :=
  (i < length index)%nat /\
  forall j, (j < length index)%nat ->
    (pd.distance index i target <= pd.distance index j target)%Q.



(** Two rasters are on the same spatial grid: same georeferencing and
    same shape. *)
Definition same_grid (s1 s2 : rasterio.DatasetReader) : Prop :=
  Affine.eqb (rasterio.transform s1) (rasterio.transform s2) = true /\
  rasterio.crs s1 = rasterio.crs s2 /\
  rasterio.height s1 = rasterio.height s2 /\
  rasterio.width s1 = rasterio.width s2.

Definition same_shape (s1 s2 : rasterio.DatasetReader) : Prop :=
  rasterio.height s1 = rasterio.height s2 /\ rasterio.width s1 = rasterio.width s2.

(** [image_2] with one more column. *)
Definition image_2_wider : rasterio.DatasetReader :=
  geotiff grid_a None 2 4
    [ [Num 200; Num 201; Num 202; Num 203]; [Num 210; Num 211; Num 212; Num 213] ].

(** ** Further cells of the notebook *)

(** *** Selection of the visible region *)

(** [Index.slice_indexer(start, stop)] for a label slice on a monotonic
    index: the positions from the first label at or after [start] up to
    and including the last label at or before [stop], in index order,
    as a half-open range of positions. *)
Definition slice_indexer (index : list Q) (start stop : Q) : result (nat * nat) :=
  let increasing := pd.is_strictly_increasing index in
  if negb increasing && negb (pd.is_strictly_decreasing index) then Raise OutsideModel
  else
    Ok (pd.searchsorted
          (fun v => if increasing then pd.Qltb v start else pd.Qltb start v) index,
        pd.searchsorted
          (fun v => if increasing then Qle_bool v stop else Qle_bool stop v) index).

(** [l[lo:hi]] *)
Definition pyslice {A : Type} (lo hi : nat) (l : list A) : list A :=
  take (hi - lo) (drop lo l).

(** The dictionary that [get_xarray_selection] builds. *)
Record Selection : Type := mk_Selection {
  sel_x : Q * Q;
  sel_y : Q * Q;
  sel_band : option (list nat)
}.

(** A [slice] built by unpacking a range; unpacking None is a TypeError. *)
Definition slice_of (r : option (Q * Q)) : result (Q * Q) :=
  match r with
  | Some lim => Ok lim
  | None => Raise TypeError
  end.

(** [r[::-1]] on a range. *)
Definition reversed (r : option (Q * Q)) : option (Q * Q) :=
  match r with
  | Some (lo, hi) => Some (hi, lo)
  | None => None
  end.

(** [get_xarray_selection(img, band)]; [limits] is the range stream of the
    viewer cell. *)
Definition get_xarray_selection (limits : RangeXY) (img : DynamicMap) (band : bool)
    : result Selection :=
  sx ← slice_of (x_range limits);
  sy ← slice_of (reversed (y_range limits));
  Ok (mk_Selection sx sy (if band then Some [callback_args img] else None)).

(** Position of a label in the band coordinate. *)
Fixpoint band_loc (labels : list Z) (label : Z) : option nat :=
  match labels with
  | [] => None
  | l :: labels' => if l =? label then Some O else S <$> band_loc labels' label
  end.

Fixpoint band_locs (labels : list Z) (wanted : list nat) : result (list nat) :=
  match wanted with
  | [] => Ok []
  | k :: wanted' =>
      match band_loc labels (Z.of_nat k) with
      | None => Raise KeyError
      | Some i =>
          match band_locs labels wanted' with
          | Ok is_ => Ok (i :: is_)
          | Raise e => Raise e
          end
      end
  end.

(** [ds.sel(selection)]: label slices on [x] and [y], and a list of labels
    on [band] when the selection has one. *)
Definition sel (ds : xr.Dataset) (selection : Selection) : result xr.Dataset :=
  match xr.x ds, xr.y ds with
  | Some xs, Some ys =>
      '(x0, x1) ← slice_indexer xs (fst (sel_x selection)) (snd (sel_x selection));
      '(y0, y1) ← slice_indexer ys (fst (sel_y selection)) (snd (sel_y selection));
      ks ← match sel_band selection with
           | Some wanted => band_locs (xr.band ds) wanted
           | None => Ok (seq 0 (length (xr.band ds)))
           end;
      let window := fun {A : Type} (arr : list (list A)) =>
                      map (pyslice x0 x1) (pyslice y0 y1 arr) in
      Ok {| xr.sizes := (length ks, length (pyslice y0 y1 ys), length (pyslice x0 x1 xs));
            xr.band := omap (fun k => xr.band ds !! k) ks;
            xr.y := Some (pyslice y0 y1 ys);
            xr.x := Some (pyslice x0 x1 xs);
            xr.mask := window <$> xr.mask ds;
            xr.unw := omap (fun k => window <$> (xr.unw ds !! k)) ks;
            xr.attrs := xr.attrs ds |}
  | _, _ => Raise OutsideModel
  end.

(** [DSmasked.sel(get_xarray_selection(img))] *)
Definition select_view (limits : RangeXY) (img : DynamicMap) (DSmasked : xr.Dataset)
    : result xr.Dataset :=
  selection ← get_xarray_selection limits img false;
  sel DSmasked selection.

(** *** Stack *)

Definition valid (v : pixel) : option Q :=
  match v with
  | Num q => Some q
  | NaN => None
  end.

Definition Qsum (qs : list Q) : Q := foldr Qplus 0%Q qs.

(** The mean of the values that are not NaN; NaN when there is none. *)
Definition nanmean (vs : list pixel) : pixel :=
  match omap valid vs with
  | [] => NaN
  | qs => Num (Qsum qs / inject_Z (Z.of_nat (length qs)))%Q
  end.

(** [ds.mean(dim='band')] on the data variable: missing values are
    skipped. *)
Definition mean_band (ds : xr.Dataset) : ndarray2 pixel :=
  let ny := snd (fst (xr.sizes ds)) in
  let nx := snd (xr.sizes ds) in
  map (fun r =>
         map (fun c => nanmean (map (fun arr => getitem2 NaN arr r c) (xr.unw ds)))
             (seq 0 nx))
      (seq 0 ny).

(** [stack = ds.where(ds.mask == False).mean(dim='band')] *)
Definition stack (ds : xr.Dataset) : result (ndarray2 pixel) :=
  masked ← where_mask_False ds;
  Ok (mean_band masked).

(** *** Further example data *)

(** [image_2] with a second band. *)
Definition image_2_two_bands : rasterio.DatasetReader :=
  {| rasterio.name := "";
     rasterio.driver := "GTiff";
     rasterio.dtype := "float32";
     rasterio.nodata := None;
     rasterio.width := 3;
     rasterio.height := 2;
     rasterio.count := 2;
     rasterio.crs := "EPSG:32605";
     rasterio.transform := grid_a;
     rasterio.blockxsize := 512;
     rasterio.blockysize := 512;
     rasterio.tiled := true;
     rasterio.compress := Some "deflate";
     rasterio.interleave := Some "band";
     rasterio.bands :=
       [ [ [Num 200; Num 201; Num 202]; [Num 210; Num 211; Num 212] ];
         [ [Num 300; Num 301; Num 302]; [Num 310; Num 311; Num 312] ] ] |}.


(** A view of the first image that covers its last two columns and its
    first row. *)
Definition limits_inside : RangeXY := mk_RangeXY (Some (1040%Q, 1080%Q)) (Some (4970%Q, 4990%Q)).


(** A date of the proleptic Gregorian calendar, as [datetime] accepts. *)
Definition valid_date (d : datetime) : Prop :=
  1 <= year d /\ 1 <= month d <= 12 /\ 1 <= day d <= days_in_month (year d) (month d).

(** [d1] is an earlier day than [d2]. *)
Definition date_lt (d1 d2 : datetime) : Prop :=
  year d1 < year d2 \/
  (year d1 = year d2 /\
   (month d1 < month d2 \/ (month d1 = month d2 /\ day d1 < day d2))).
(** * Properties *)

(** ** The result monad and column operations *)

Lemma bind_Ok {A B : Type} (m : result A) (k : A -> result B) (b : B) :
  m ≫= k = Ok b -> exists a, m = Ok a /\ k a = Ok b.
Proof. destruct m as [a|e]; simpl; intros H; [eauto | discriminate]. Qed.

Ltac inv_bind H :=
  let a := fresh "v" in
  let Ha := fresh "Hv" in
  apply bind_Ok in H; destruct H as (a & Ha & H).

Lemma apply_length {A B : Type} (g : A -> result B) (l : list A) (bs : list B) :
  apply g l = Ok bs -> length bs = length l.
Proof.
  revert bs. induction l as [|a l IH]; simpl; intros bs H.
  - by inversion H.
  - destruct (g a) as [b|]; [|discriminate].
    destruct (apply g l) as [bs'|]; [|discriminate].
    inversion H; subst. simpl. f_equal. by apply IH.
Qed.

Lemma apply_lookup {A B : Type} (g : A -> result B) (l : list A) (bs : list B)
    (i : nat) (a : A) :
  apply g l = Ok bs -> l !! i = Some a -> exists b, bs !! i = Some b /\ g a = Ok b.
Proof.
  revert bs i. induction l as [|a' l IH]; simpl; intros bs i H Hi; [done|].
  destruct (g a') as [b'|] eqn:Hg; [|discriminate].
  destruct (apply g l) as [bs'|]; [|discriminate].
  inversion H; subst. destruct i as [|i]; simpl in *.
  - inversion Hi; subst. eauto.
  - by apply IH.
Qed.

Lemma apply_Forall2 {A B : Type} (g : A -> result B) (l : list A) (bs : list B) :
  Forall2 (fun a b => g a = Ok b) l bs -> apply g l = Ok bs.
Proof.
  induction 1 as [|a b l bs Hab _ IH]; simpl; [done|].
  by rewrite Hab, IH.
Qed.

Lemma apply2_length {A B C : Type} (g : A -> B -> result C)
    (l1 : list A) (l2 : list B) (cs : list C) :
  length l1 = length l2 -> apply2 g l1 l2 = Ok cs -> length cs = length l1.
Proof.
  revert l2 cs. induction l1 as [|a l1 IH]; intros [|b l2] cs Hlen H;
    simpl in *; try discriminate.
  - by inversion H.
  - destruct (g a b); [|discriminate].
    destruct (apply2 g l1 l2) as [cs'|] eqn:Hcs; [|discriminate].
    inversion H; subst. simpl. f_equal. apply (IH l2); [lia | done].
Qed.

Lemma apply2_lookup {A B C : Type} (g : A -> B -> result C)
    (l1 : list A) (l2 : list B) (cs : list C) (i : nat) (c : C) :
  apply2 g l1 l2 = Ok cs -> cs !! i = Some c ->
  exists a b, l1 !! i = Some a /\ l2 !! i = Some b /\ g a b = Ok c.
Proof.
  revert l2 cs i. induction l1 as [|a l1 IH]; intros [|b l2] cs i H Hi;
    simpl in *; try (inversion H; subst; done).
  destruct (g a b) as [c'|] eqn:Hg; [|discriminate].
  destruct (apply2 g l1 l2) as [cs'|] eqn:Hcs; [|discriminate].
  inversion H; subst. destruct i as [|i]; simpl in *.
  - inversion Hi; subst. eauto.
  - by apply (IH l2 cs').
Qed.

(** ** Catalog builder *)

Lemma value_sub_Ok (v1 v2 : value) (delta : timedelta) :
  value_sub v1 v2 = Ok delta ->
  exists d1 d2, v1 = VDate d1 /\ v2 = VDate d2 /\ delta = datetime_sub d1 d2.
Proof.
  destruct v1, v2; simpl; intros H; try discriminate.
  inversion H; eauto.
Qed.

Lemma make_dataframe_columns (images : list string) (df : DataFrame) :
  make_dataframe images = Ok df ->
  gs df = merge_sort str_le images /\
  url df = map (fun g => "http://storage.googleapis.com/" +:+ g) (gs df) /\
  length (date1 df) = len df /\ length (date2 df) = len df /\
  length (dt df) = len df /\
  apply2 value_sub (date1 df) (date2 df) = Ok (dt df).
Proof.
  unfold make_dataframe. intros H.
  inv_bind H. inv_bind H. inv_bind H. inversion H; subst; clear H. unfold len; simpl.
  pose proof (apply_length _ _ _ Hv) as L1.
  pose proof (apply_length _ _ _ Hv0) as L2.
  repeat split; try done.
  rewrite <- L1. eapply apply2_length; [|exact Hv1]. congruence.
Qed.

Lemma compare_trans_not_Gt (s1 s2 s3 : string) :
  String.compare s1 s2 <> Gt -> String.compare s2 s3 <> Gt -> String.compare s1 s3 <> Gt.
Proof.
  revert s2 s3. induction s1 as [|a s1 IH]; intros [|b s2] [|c s3]; simpl; try congruence.
  destruct (Ascii.compare a b) eqn:E1; destruct (Ascii.compare b c) eqn:E2; try congruence.
  - apply Ascii.compare_eq_iff in E1, E2. subst.
    unfold Ascii.compare. rewrite N.compare_refl. apply IH.
  - apply Ascii.compare_eq_iff in E1. subst. rewrite E2. congruence.
  - apply Ascii.compare_eq_iff in E2. subst. rewrite E1. congruence.
  - unfold Ascii.compare in *. rewrite N.compare_lt_iff in E1, E2.
    assert (E3 : (N_of_ascii a ?= N_of_ascii c)%N = Lt) by (apply N.compare_lt_iff; lia).
    rewrite E3. congruence.
Qed.

Global Instance str_le_trans : Transitive str_le.
Proof.
  intros s1 s2 s3. unfold str_le, String.leb. intros H1 H2.
  pose proof (compare_trans_not_Gt s1 s2 s3) as H.
  destruct (String.compare s1 s2); try discriminate;
    destruct (String.compare s2 s3); try discriminate;
    destruct (String.compare s1 s3); try reflexivity; exfalso; apply H; congruence.
Qed.

Global Instance str_le_antisym : AntiSymm (=) str_le.
Proof. intros s1 s2. apply String.leb_antisym. Qed.

(** The sorted column does not depend on the sorting algorithm: any
    sorted arrangement of the keys is the one [make_dataframe] uses. *)
Lemma sort_values_unique (images sorted : list string) :
  StronglySorted str_le sorted -> sorted ≡ₚ images -> sorted = merge_sort str_le images.
Proof.
  intros Hs Hp. apply (StronglySorted_unique str_le); [done| |].
  - apply StronglySorted_merge_sort; apply _.
  - by rewrite merge_sort_Permutation.
Qed.

(** C5. In every catalog that [make_dataframe] returns, each row has a
    date delta equal to its first date minus its second date, and the
    rows are in ascending order of the remote path: every path is at most
    every later path. *)
Theorem catalog_delta_and_order (images : list string) (df : DataFrame) :
  make_dataframe images = Ok df ->
  (forall (i : nat), (i < len df)%nat ->
     exists d1 d2,
       date1 df !! i = Some (VDate d1) /\ date2 df !! i = Some (VDate d2) /\
       dt df !! i = Some (datetime_sub d1 d2) /\
       days (datetime_sub d1 d2) = toordinal d1 - toordinal d2) /\
  StronglySorted str_le (gs df) /\
  gs df ≡ₚ images.
Proof.
  intros H. destruct (make_dataframe_columns _ _ H) as (Hgs & _ & L1 & L2 & L3 & Hdt).
  split; [|split].
  - intros i Hi.
    destruct (lookup_lt_is_Some_2 (dt df) i ltac:(lia)) as [delta Hdelta].
    destruct (apply2_lookup _ _ _ _ _ _ Hdt Hdelta) as (v1 & v2 & H1 & H2 & Hsub).
    destruct (value_sub_Ok _ _ _ Hsub) as (d1 & d2 & -> & -> & ->).
    exists d1, d2. done.
  - rewrite Hgs. apply StronglySorted_merge_sort; apply _.
  - rewrite Hgs. apply merge_sort_Permutation.
Qed.

Lemma catalog_delta_and_order_witness :
  make_dataframe scenario_keys = Ok scenario_df /\
  (forall (i : nat), (i < len scenario_df)%nat ->
     exists d1 d2,
       date1 scenario_df !! i = Some (VDate d1) /\
       date2 scenario_df !! i = Some (VDate d2) /\
       dt scenario_df !! i = Some (datetime_sub d1 d2) /\
       days (datetime_sub d1 d2) = toordinal d1 - toordinal d2) /\
  StronglySorted str_le (gs scenario_df) /\
  gs scenario_df ≡ₚ scenario_keys.
Proof.
  assert (H : make_dataframe scenario_keys = Ok scenario_df) by (vm_compute; reflexivity).
  split; [exact H | exact (catalog_delta_and_order _ _ H)].
Defined.

(** C9, as stated: the first row of the scenario does not have a date
    delta of 14 days. *)
Lemma scenario_delta_not_14 : ~ scenario_catalog 14.
Proof.
  intros (df & H & _ & _ & _ & Hdt).
  vm_compute in H. inversion H; subst; clear H.
  vm_compute in Hdt. discriminate.
Qed.

(** C9, amended. The catalog of the two scenario keys has two rows sorted
    by key, with first dates 2020-01-01 and 2020-02-01, and the date delta
    of the first row is minus 14 days (first date minus second date). *)
Theorem scenario_delta_minus_14 : scenario_catalog (-14).
Proof.
  eexists. split; [vm_compute; reflexivity|].
  split; [reflexivity|]. split; [reflexivity|].
  split; [|reflexivity].
  simpl. repeat constructor.
Qed.

(** ** Mask applier *)

Lemma zip_with_keep_idem (row : list pixel) (cond : list bool) :
  zip_with (fun (v : pixel) (keep : bool) => if keep then v else NaN)
    (zip_with (fun (v : pixel) (keep : bool) => if keep then v else NaN) row cond) cond
  = zip_with (fun (v : pixel) (keep : bool) => if keep then v else NaN) row cond.
Proof.
  revert cond. induction row as [|v row IH]; intros [|k cond]; simpl; try done.
  rewrite IH. by destruct k.
Qed.

Lemma map2d2_keep_idem (arr : ndarray2 pixel) (cond : ndarray2 bool) :
  rasterio.map2d2 (fun (v : pixel) (keep : bool) => if keep then v else NaN)
    (rasterio.map2d2 (fun (v : pixel) (keep : bool) => if keep then v else NaN) arr cond)
    cond
  = rasterio.map2d2 (fun (v : pixel) (keep : bool) => if keep then v else NaN) arr cond.
Proof.
  unfold rasterio.map2d2.
  revert cond. induction arr as [|row arr IH]; intros [|c cond]; simpl; try done.
  by rewrite IH, zip_with_keep_idem.
Qed.

Lemma where_idem (ds : xr.Dataset) (cond : ndarray2 bool) :
  xr.where_ (xr.where_ ds cond) cond = xr.where_ ds cond.
Proof.
  unfold xr.where_; simpl. f_equal.
  rewrite <- list_fmap_compose. apply list_fmap_ext.
  intros i arr _. simpl. apply map2d2_keep_idem.
Qed.

(** C4. Applying the mask is a function of the dataset, and applying it
    again to the masked dataset returns the masked dataset unchanged; in
    particular the number of missing values does not change. *)
Theorem where_mask_idempotent (ds masked : xr.Dataset) :
  where_mask_False ds = Ok masked ->
  where_mask_False masked = Ok masked /\
  (forall again, where_mask_False masked = Ok again ->
     xr.count_missing again = xr.count_missing masked).
Proof.
  unfold where_mask_False. intros H. inv_bind H.
  unfold xr.get_mask in Hv. destruct (xr.mask ds) as [m|] eqn:Hm; [|discriminate].
  inversion Hv; subst v; clear Hv. inversion H; subst masked; clear H.
  assert (Hagain : xr.get_mask (xr.where_ ds (xr.eq_False m)) ≫=
                     (fun m0 => Ok (xr.where_ (xr.where_ ds (xr.eq_False m)) (xr.eq_False m0)))
                   = Ok (xr.where_ ds (xr.eq_False m))).
  { unfold xr.get_mask. simpl. rewrite Hm. simpl. by rewrite where_idem. }
  split; [exact Hagain|].
  intros again H. rewrite Hagain in H. by inversion H.
Qed.

Lemma where_mask_idempotent_witness :
  exists DS DS' masked,
    create_dataset scenario_df (store_of image_1 image_2) = Ok DS /\
    add_mask scenario_df (store_of image_1 image_2) west_of_1070 DS = Ok (DS', masked) /\
    where_mask_False DS' = Ok masked /\
    where_mask_False masked = Ok masked.
Proof.
  eexists _, _, _.
  split; [vm_compute; reflexivity|].
  split; [vm_compute; reflexivity|].
  match goal with
  | |- where_mask_False ?d = Ok ?m /\ _ =>
      assert (H : where_mask_False d = Ok m) by (vm_compute; reflexivity);
      exact (conj H (proj1 (where_mask_idempotent d m H)))
  end.
Defined.

Lemma geometry_mask_lookup (shapes : Q -> Q -> bool) (src : rasterio.DatasetReader)
    (r c : nat) :
  (r < rasterio.height src)%nat -> (c < rasterio.width src)%nat ->
  exists mrow,
    rasterio.geometry_mask shapes src !! r = Some mrow /\
    mrow !! c = Some (negb (shapes (fst (rasterio.xy src r c)) (snd (rasterio.xy src r c)))).
Proof.
  intros Hr Hc. unfold rasterio.geometry_mask.
  eexists. split.
  - change (map ?g ?l) with (g <$> l).
    rewrite list_lookup_fmap, lookup_seq_lt by done. simpl. reflexivity.
  - change (map ?g ?l) with (g <$> l).
    rewrite list_lookup_fmap, lookup_seq_lt by done. simpl.
    by destruct (rasterio.xy src r c).
Qed.

Lemma geometry_mask_shape (shapes : Q -> Q -> bool) (src : rasterio.DatasetReader) :
  xr.has_shape (rasterio.geometry_mask shapes src)
    (rasterio.height src) (rasterio.width src) = true.
Proof.
  unfold xr.has_shape, rasterio.geometry_mask.
  rewrite length_map, length_seq, Nat.eqb_refl. simpl.
  apply forallb_forall. intros row Hrow. apply in_map_iff in Hrow.
  destruct Hrow as (r & <- & _). rewrite length_map, length_seq. apply Nat.eqb_refl.
Qed.

Lemma zip_with_has_shape {A B C : Type} (g : A -> B -> C)
    (m1 : ndarray2 A) (m2 : ndarray2 B) (ny nx : nat) :
  xr.has_shape m1 ny nx = true -> xr.has_shape m2 ny nx = true ->
  xr.has_shape (rasterio.map2d2 g m1 m2) ny nx = true.
Proof.
  unfold xr.has_shape, rasterio.map2d2.
  intros [L1 F1]%andb_true_iff [L2 F2]%andb_true_iff.
  apply Nat.eqb_eq in L1, L2. apply andb_true_iff. split.
  - apply Nat.eqb_eq. rewrite length_zip_with. lia.
  - clear L1 L2. revert m2 F2. induction m1 as [|r1 m1 IH]; intros [|r2 m2] F2; simpl; try done.
    simpl in F1, F2. apply andb_true_iff in F1 as [E1 F1]. apply andb_true_iff in F2 as [E2 F2].
    apply Nat.eqb_eq in E1, E2. apply andb_true_iff. split; [|by apply IH].
    apply Nat.eqb_eq. rewrite length_zip_with. lia.
Qed.

Lemma map_has_shape {A B : Type} (g : A -> B) (m : ndarray2 A) (ny nx : nat) :
  xr.has_shape m ny nx = true -> xr.has_shape (map (map g) m) ny nx = true.
Proof.
  unfold xr.has_shape. intros [L F]%andb_true_iff.
  apply andb_true_iff. split; [by rewrite length_map|].
  clear L. induction m as [|row m IH]; simpl in *; [done|].
  apply andb_true_iff in F as [E F]. rewrite length_map, E. simpl. by apply IH.
Qed.

(** C3, as stated: a pixel inside the polygon whose value is zero is
    marked in the mask. *)
Lemma water_marks_zero_pixel_inside_polygon :
  everywhere "EPSG:32605" 1015%Q 4985%Q = true /\
  rasterio.xy image_zero 0 0 = ((2030 # 2)%Q, (9970 # 2)%Q) /\
  water scenario_df (store_of image_zero image_2) everywhere = Ok [[true; false]].
Proof. split; [reflexivity|]. split; vm_compute; reflexivity. Qed.

(** C3, amended. The mask layer has the shape of the raster grid and is
    true exactly where the polygon-masked first image equals zero: at a
    pixel outside the reprojected polygon when the fill value (the nodata
    value of the raster, zero when it has none) is zero, and at a pixel
    inside the polygon when the value stored there is zero. *)
Theorem water_is_zero_of_masked_image (df : DataFrame)
    (store : gmap string rasterio.DatasetReader) (gf : string -> Q -> Q -> bool)
    (w : ndarray2 bool) :
  water df store gf = Ok w ->
  exists url0 src arr,
    url df !! 0%nat = Some url0 /\
    rasterio.open store url0 = Ok src /\
    rasterio.bands src !! 0%nat = Some arr /\
    (xr.has_shape arr (rasterio.height src) (rasterio.width src) = true ->
     xr.has_shape w (rasterio.height src) (rasterio.width src) = true) /\
    (forall (r c : nat) (row : list pixel) (v : pixel),
       (r < rasterio.height src)%nat -> (c < rasterio.width src)%nat ->
       arr !! r = Some row -> row !! c = Some v ->
       exists wrow,
         w !! r = Some wrow /\
         wrow !! c =
           Some (if gf (rasterio.crs src)
                      (fst (rasterio.xy src r c)) (snd (rasterio.xy src r c))
                 then eq_zero v
                 else eq_zero (match rasterio.nodata src with
                               | Some fill => fill
                               | None => Num 0
                               end))).
Proof.
  unfold water. intros H. inv_bind H. inv_bind H. inv_bind H.
  inversion H; subst w; clear H.
  unfold url_iloc in Hv. destruct (url df !! 0%nat) as [u|] eqn:Hu; [|discriminate].
  inversion Hv; subst v; clear Hv.
  unfold rasterio.mask, rasterio.read_band in Hv1.
  destruct (rasterio.bands v0 !! 0%nat) as [arr|] eqn:Harr; [|discriminate].
  inversion Hv1; subst v1; clear Hv1.
  exists u, v0, arr. repeat (split; [done|]). split.
  - intros Hshape. apply map_has_shape, zip_with_has_shape; [|done].
    apply geometry_mask_shape.
  - intros r c row v Hr Hc Hrow Hv.
    destruct (geometry_mask_lookup (gf (rasterio.crs v0)) v0 r c Hr Hc)
      as (mrow & Hmrow & Hm).
    eexists. split.
    + change (map ?g ?l) with (g <$> l). unfold rasterio.map2d2.
      rewrite list_lookup_fmap, lookup_zip_with, Hmrow. simpl. rewrite Hrow. simpl.
      reflexivity.
    + change (map ?g ?l) with (g <$> l).
      rewrite list_lookup_fmap, lookup_zip_with, Hm. simpl. rewrite Hv. simpl.
      by destruct (gf _ _ _).
Qed.

Lemma water_is_zero_of_masked_image_witness :
  exists w,
    water scenario_df (store_of image_1 image_2) west_of_1070 = Ok w /\
    exists url0 src arr,
      url scenario_df !! 0%nat = Some url0 /\
      rasterio.open (store_of image_1 image_2) url0 = Ok src /\
      rasterio.bands src !! 0%nat = Some arr.
Proof.
  eexists. split; [vm_compute; reflexivity|].
  destruct (water_is_zero_of_masked_image scenario_df (store_of image_1 image_2)
              west_of_1070 _ ltac:(vm_compute; reflexivity))
    as (url0 & src & arr & H1 & H2 & H3 & _).
  exists url0, src, arr. done.
Defined.

(** ** Region extractor *)








Lemma open_name (store : gmap string rasterio.DatasetReader) (u : string)
    (src : rasterio.DatasetReader) :
  rasterio.open store u = Ok src -> rasterio.name src = u.
Proof.
  unfold rasterio.open. destruct (store !! u); [|discriminate].
  intros H; inversion H; done.
Qed.





(** ** Nearest-label lookup *)

Lemma Qltb_lt (p q : Q) : pd.Qltb p q = true <-> (p < q)%Q.
Proof.
  unfold pd.Qltb. rewrite negb_true_iff. split.
  - intros H. apply Qnot_le_lt. intros Hle%Qle_bool_iff. congruence.
  - intros H. apply not_true_is_false. intros Hle%Qle_bool_iff. lra.
Qed.

Lemma Qltb_ge (p q : Q) : pd.Qltb p q = false <-> (q <= p)%Q.
Proof.
  unfold pd.Qltb. rewrite negb_false_iff. apply Qle_bool_iff.
Qed.

Lemma Qle_bool_gt (p q : Q) : Qle_bool p q = false <-> (q < p)%Q.
Proof.
  split.
  - intros H. apply Qnot_le_lt. intros Hle%Qle_bool_iff. congruence.
  - intros H. apply not_true_is_false. intros Hle%Qle_bool_iff. lra.
Qed.

Lemma sord_trans (inc : bool) (u v w : Q) : sord inc u v -> sord inc v w -> sord inc u w.
Proof. destruct inc; simpl; lra. Qed.

Lemma sord_ord (inc : bool) (u v : Q) : sord inc u v -> ord inc u v.
Proof. destruct inc; simpl; lra. Qed.

Lemma ord_sord_absurd (inc : bool) (u v : Q) : ord inc u v -> sord inc v u -> False.
Proof. destruct inc; simpl; lra. Qed.

Lemma ord_refl (inc : bool) (u : Q) : ord inc u u.
Proof. destruct inc; simpl; lra. Qed.

Lemma monotonic_tail (inc : bool) (p : Q) (l : list Q) :
  monotonic inc (p :: l) = true -> monotonic inc l = true.
Proof.
  destruct inc, l as [|q l]; simpl; try done; intros H; apply andb_true_iff in H; tauto.
Qed.

Lemma monotonic_head (inc : bool) (p q : Q) (l : list Q) :
  monotonic inc (p :: q :: l) = true -> sord inc p q.
Proof.
  destruct inc; simpl; intros H; apply andb_true_iff in H as [H _];
    by apply Qltb_lt in H.
Qed.

Lemma monotonic_head_nth (inc : bool) (p : Q) (l : list Q) (j : nat) :
  monotonic inc (p :: l) = true -> (j < length l)%nat -> sord inc p (nth j l 0%Q).
Proof.
  revert p j. induction l as [|q l IH]; intros p j Hm Hj; simpl in Hj; [lia|].
  pose proof (monotonic_head _ _ _ _ Hm) as Hpq.
  destruct j as [|j]; [exact Hpq|].
  eapply sord_trans; [exact Hpq|].
  apply IH; [by eapply monotonic_tail | lia].
Qed.

Lemma monotonic_nth (inc : bool) (l : list Q) (i j : nat) :
  monotonic inc l = true -> (i < j)%nat -> (j < length l)%nat ->
  sord inc (nth i l 0%Q) (nth j l 0%Q).
Proof.
  revert i j. induction l as [|p l IH]; intros i j Hm Hij Hj; simpl in Hj; [lia|].
  destruct j as [|j]; [lia|]. destruct i as [|i]; simpl.
  - apply monotonic_head_nth; [exact Hm | lia].
  - apply IH; [by eapply monotonic_tail | lia | lia].
Qed.

Lemma monotonic_nth_le (inc : bool) (l : list Q) (i j : nat) :
  monotonic inc l = true -> (i <= j)%nat -> (j < length l)%nat ->
  ord inc (nth i l 0%Q) (nth j l 0%Q).
Proof.
  intros Hm Hij Hj. destruct (decide (i = j)) as [->|Hne].
  - apply ord_refl.
  - apply sord_ord, monotonic_nth; [done | lia | done].
Qed.

Lemma searchsorted_spec (p : Q -> bool) (l : list Q) :
  (pd.searchsorted p l <= length l)%nat /\
  (forall j, (j < pd.searchsorted p l)%nat -> p (nth j l 0%Q) = true) /\
  ((pd.searchsorted p l < length l)%nat -> p (nth (pd.searchsorted p l) l 0%Q) = false).
Proof.
  induction l as [|v l (IH1 & IH2 & IH3)]; simpl.
  - split; [lia|]. split; intros; lia.
  - destruct (p v) eqn:Hp; simpl.
    + split; [lia|]. split.
      * intros [|j] Hj; [done|]. apply IH2. lia.
      * intros H. apply IH3. lia.
    + split; [lia|]. split; [intros; lia|]. done.
Qed.

Lemma distance_before (inc : bool) (index : list Q) (t : Q) (i j : nat) :
  ord inc (nth j index 0%Q) (nth i index 0%Q) -> ord inc (nth i index 0%Q) t ->
  (pd.distance index i t <= pd.distance index j t)%Q.
Proof.
  unfold pd.distance. intros H1 H2.
  pose proof (Qle_Qabs (nth j index 0%Q - t)) as A1.
  pose proof (Qle_Qabs (t - nth j index 0%Q)) as A2.
  rewrite (Qabs_Qminus t) in A2.
  apply Qabs_Qle_condition. destruct inc; simpl in *; split; lra.
Qed.

Lemma distance_after (inc : bool) (index : list Q) (t : Q) (i j : nat) :
  ord inc t (nth i index 0%Q) -> ord inc (nth i index 0%Q) (nth j index 0%Q) ->
  (pd.distance index i t <= pd.distance index j t)%Q.
Proof.
  unfold pd.distance. intros H1 H2.
  pose proof (Qle_Qabs (nth j index 0%Q - t)) as A1.
  pose proof (Qle_Qabs (t - nth j index 0%Q)) as A2.
  rewrite (Qabs_Qminus t) in A2.
  apply Qabs_Qle_condition. destruct inc; simpl in *; split; lra.
Qed.

(** What the two neighbour searches return on a monotonic index. *)
Lemma pad_spec (inc : bool) (index : list Q) (t : Q) :
  monotonic inc index = true ->
  match pd.pad inc index t with
  | Some l =>
      (l < length index)%nat /\ ord inc (nth l index 0%Q) t /\
      forall j, (l < j)%nat -> (j < length index)%nat -> sord inc t (nth j index 0%Q)
  | None => forall j, (j < length index)%nat -> sord inc t (nth j index 0%Q)
  end.
Proof.
  intros Hm. unfold pd.pad.
  set (p := fun v : Q => if inc then Qle_bool v t else Qle_bool t v).
  destruct (searchsorted_spec p index) as (H1 & H2 & H3).
  assert (Hp_true : forall v, p v = true -> ord inc v t).
  { intros v. unfold p. destruct inc; simpl; apply Qle_bool_iff. }
  assert (Hp_false : forall v, p v = false -> sord inc t v).
  { intros v. unfold p. destruct inc; simpl; apply Qle_bool_gt. }
  assert (Hafter : forall j, (pd.searchsorted p index <= j)%nat ->
                     (j < length index)%nat -> sord inc t (nth j index 0%Q)).
  { intros j Hj1 Hj2. specialize (H3 ltac:(lia)). apply Hp_false in H3.
    destruct (decide (pd.searchsorted p index = j)) as [<-|Hne]; [done|].
    eapply sord_trans; [exact H3|]. apply monotonic_nth; [done | lia | done]. }
  destruct (pd.searchsorted p index) as [|n] eqn:Hn.
  - intros j Hj. apply Hafter; [lia | done].
  - split; [lia|]. split; [apply Hp_true, H2; lia|].
    intros j Hj1 Hj2. apply Hafter; [lia | done].
Qed.

Lemma backfill_spec (inc : bool) (index : list Q) (t : Q) :
  monotonic inc index = true ->
  match pd.backfill inc index t with
  | Some r =>
      (r < length index)%nat /\ ord inc t (nth r index 0%Q) /\
      forall j, (j < r)%nat -> sord inc (nth j index 0%Q) t
  | None => forall j, (j < length index)%nat -> sord inc (nth j index 0%Q) t
  end.
Proof.
  intros Hm. unfold pd.backfill.
  set (p := fun v : Q => if inc then pd.Qltb v t else pd.Qltb t v).
  destruct (searchsorted_spec p index) as (H1 & H2 & H3).
  assert (Hp_true : forall v, p v = true -> sord inc v t).
  { intros v. unfold p. destruct inc; simpl; apply Qltb_lt. }
  assert (Hp_false : forall v, p v = false -> ord inc t v).
  { intros v. unfold p. destruct inc; simpl; apply Qltb_ge. }
  destruct (Nat.ltb_spec (pd.searchsorted p index) (length index)) as [Hlt|Hge].
  - split; [done|]. split; [apply Hp_false, H3, Hlt|].
    intros j Hj. apply Hp_true, H2, Hj.
  - intros j Hj. apply Hp_true, H2. lia.
Qed.

Lemma sord_asym (inc : bool) (u v : Q) : sord inc u v -> sord inc v u -> False.
Proof. destruct inc; simpl; lra. Qed.

Lemma nearest_choice (inc : bool) (index : list Q) (t : Q) (i : nat) :
  monotonic inc index = true ->
  match pd.pad inc index t, pd.backfill inc index t with
  | Some l, Some r =>
      if (if inc
          then pd.Qltb (pd.distance index l t) (pd.distance index r t)
          else Qle_bool (pd.distance index l t) (pd.distance index r t))
      then Ok l else Ok r
  | Some l, None => Ok l
  | None, Some r => Ok r
  | None, None => Raise KeyError
  end = Ok i ->
  is_nearest index t i.
Proof.
  intros Hm. pose proof (pad_spec inc index t Hm) as P.
  pose proof (backfill_spec inc index t Hm) as B.
  destruct (pd.pad inc index t) as [l|], (pd.backfill inc index t) as [r|].
  - destruct P as (Pl & Po & Pa), B as (Bl & Bo & Bb).
    assert (Hleft : forall j, (j <= l)%nat ->
              (pd.distance index l t <= pd.distance index j t)%Q).
    { intros j Hj. apply (distance_before inc); [|done].
      apply monotonic_nth_le; [done | lia | lia]. }
    assert (Hright : forall j, (r <= j)%nat -> (j < length index)%nat ->
              (pd.distance index r t <= pd.distance index j t)%Q).
    { intros j Hj1 Hj2. apply (distance_after inc); [done|].
      apply monotonic_nth_le; [done | lia | lia]. }
    assert (Hside : forall j, (j < length index)%nat -> (j <= l)%nat \/ (r <= j)%nat).
    { intros j Hj. destruct (le_lt_dec j l) as [|Hlj]; [by left|]. right.
      destruct (le_lt_dec r j) as [|Hjr]; [done|]. exfalso.
      eapply sord_asym; [apply (Pa j Hlj Hj) | apply (Bb j Hjr)]. }
    set (dl := pd.distance index l t) in *. set (dr := pd.distance index r t) in *.
    intros H.
    assert (Hmin : (i = l /\ (dl <= dr)%Q) \/ (i = r /\ (dr <= dl)%Q)).
    { destruct inc.
      - destruct (pd.Qltb dl dr) eqn:E; inversion H; subst.
        + left. apply Qltb_lt in E. split; [done | lra].
        + right. apply Qltb_ge in E. done.
      - destruct (Qle_bool dl dr) eqn:E; inversion H; subst.
        + left. apply Qle_bool_iff in E. done.
        + right. apply Qle_bool_gt in E. split; [done | lra]. }
    destruct Hmin as [[-> Hd]|[-> Hd]]; (split; [done|]); intros j Hj;
      destruct (Hside j Hj) as [Hjl|Hjr].
    + by apply Hleft.
    + eapply Qle_trans; [exact Hd | by apply Hright].
    + eapply Qle_trans; [exact Hd | by apply Hleft].
    + by apply Hright.
  - destruct P as (Pl & Po & Pa). intros H; inversion H; subst. split; [done|].
    intros j Hj. destruct (le_lt_dec j i) as [Hji|Hij].
    + apply (distance_before inc); [|done]. apply monotonic_nth_le; [done | lia | lia].
    + exfalso. eapply sord_asym; [apply (Pa j Hij Hj) | apply (B j Hj)].
  - destruct B as (Bl & Bo & Bb). intros H; inversion H; subst. split; [done|].
    intros j Hj. destruct (le_lt_dec i j) as [Hij|Hji].
    + apply (distance_after inc); [done|]. apply monotonic_nth_le; [done | lia | lia].
    + exfalso. eapply sord_asym; [apply (P j Hj) | apply (Bb j Hji)].
  - discriminate.
Qed.

Lemma nearest_choice_total (inc : bool) (index : list Q) (t : Q) :
  monotonic inc index = true -> index <> [] ->
  exists i,
    match pd.pad inc index t, pd.backfill inc index t with
    | Some l, Some r =>
        if (if inc
            then pd.Qltb (pd.distance index l t) (pd.distance index r t)
            else Qle_bool (pd.distance index l t) (pd.distance index r t))
        then Ok l else Ok r
    | Some l, None => Ok l
    | None, Some r => Ok r
    | None, None => Raise KeyError
    end = Ok i.
Proof.
  intros Hm Hne. pose proof (pad_spec inc index t Hm) as P.
  pose proof (backfill_spec inc index t Hm) as B.
  destruct (pd.pad inc index t) as [l|], (pd.backfill inc index t) as [r|]; eauto.
  - destruct (if inc then _ else _); eauto.
  - exfalso. destruct index as [|v index]; [done|].
    eapply sord_asym; [apply (P 0%nat) | apply (B 0%nat)]; simpl; lia.
Qed.

Lemma monotonic_unique (inc : bool) (l : list Q) :
  monotonic inc l = true -> pd.is_unique l = true.
Proof.
  induction l as [|p l IH]; intros Hm; simpl; [done|].
  apply andb_true_iff. split; [|apply IH; by eapply monotonic_tail].
  apply negb_true_iff, not_true_is_false. intros H.
  apply existsb_exists in H as (v & Hin & Heq).
  apply (In_nth _ _ 0%Q) in Hin as (j & Hj & <-).
  pose proof (monotonic_head_nth inc p l j Hm Hj) as Hs.
  apply Qeq_bool_iff in Heq. destruct inc; simpl in Hs; lra.
Qed.

Lemma get_loc_nearest_spec (index : list Q) (t : Q) (i : nat) :
  pd.get_loc_nearest index t = Ok i -> is_nearest index t i.
Proof.
  unfold pd.get_loc_nearest.
  destruct (pd.is_unique index); simpl; [|discriminate].
  destruct (pd.is_strictly_increasing index) eqn:Hinc; simpl.
  - apply (nearest_choice true); exact Hinc.
  - destruct (pd.is_strictly_decreasing index) eqn:Hdec; simpl; [|discriminate].
    apply (nearest_choice false); exact Hdec.
Qed.

Lemma get_loc_nearest_total (index : list Q) (t : Q) :
  index <> [] ->
  pd.is_strictly_increasing index = true \/ pd.is_strictly_decreasing index = true ->
  exists i, pd.get_loc_nearest index t = Ok i.
Proof.
  intros Hne Hm. unfold pd.get_loc_nearest.
  assert (Hu : pd.is_unique index = true).
  { destruct Hm as [Hm|Hm];
      [apply (monotonic_unique true) | apply (monotonic_unique false)]; exact Hm. }
  rewrite Hu. simpl.
  destruct (pd.is_strictly_increasing index) eqn:Hinc; simpl.
  - apply (nearest_choice_total true); done.
  - destruct Hm as [Hm|Hm]; [discriminate|]. rewrite Hm. simpl.
    apply (nearest_choice_total false); done.
Qed.

(** ** Series extractor *)

(** C2. A successful point extraction picks, on each spatial axis, one
    grid position whose coordinate is at least as close to the target as
    every other coordinate of the axis; it returns one value per band, in
    the order of the band axis (which [create_dataset] labels by catalog
    row), and each value is the value stored at the selected cell of that
    band. *)
Theorem time_series_nearest_cell (ds : xr.Dataset) (xcen ycen : Q)
    (ts : xr.PointSeries) :
  time_series ds xcen ycen = Ok ts ->
  exists xs ys,
    xr.x ds = Some xs /\ xr.y ds = Some ys /\
    is_nearest xs xcen (xr.ps_ix ts) /\
    is_nearest ys ycen (xr.ps_iy ts) /\
    xs !! xr.ps_ix ts = Some (xr.ps_x ts) /\
    ys !! xr.ps_iy ts = Some (xr.ps_y ts) /\
    xr.ps_band ts = xr.band ds /\
    length (xr.ps_unw ts) = length (xr.unw ds) /\
    forall (k : nat) (arr : list (list pixel)),
      xr.unw ds !! k = Some arr ->
      xr.ps_unw ts !! k = Some (getitem2 NaN arr (xr.ps_iy ts) (xr.ps_ix ts)).
Proof.
  unfold time_series, xr.sel_nearest. intros H.
  destruct (xr.x ds) as [xs|]; [|discriminate].
  destruct (xr.y ds) as [ys|]; [|discriminate].
  inv_bind H. inv_bind H. inversion H; subst ts; clear H. simpl.
  pose proof (get_loc_nearest_spec _ _ _ Hv) as Nx.
  pose proof (get_loc_nearest_spec _ _ _ Hv0) as Ny.
  exists xs, ys. split_and!; try done.
  - destruct Nx as [Hlt _]. apply lookup_lt_is_Some_2 in Hlt as [q Hq].
    rewrite Hq. f_equal. symmetry. by apply nth_lookup_Some with (d := 0%Q).
  - destruct Ny as [Hlt _]. apply lookup_lt_is_Some_2 in Hlt as [q Hq].
    rewrite Hq. f_equal. symmetry. by apply nth_lookup_Some with (d := 0%Q).
  - by rewrite length_map.
  - intros k arr Hk. change (map ?g ?l) with (g <$> l).
    by rewrite list_lookup_fmap, Hk.
Qed.

Lemma time_series_nearest_cell_witness :
  exists ds ts,
    create_dataset scenario_df (store_of image_1 image_2) = Ok ds /\
    time_series ds 1046 4960 = Ok ts /\
    xr.ps_unw ts = [Num 111; Num 211] /\
    exists xs ys,
      xr.x ds = Some xs /\ xr.y ds = Some ys /\
      is_nearest xs 1046 (xr.ps_ix ts) /\ is_nearest ys 4960 (xr.ps_iy ts).
Proof.
  eexists _, _.
  split; [vm_compute; reflexivity|].
  match goal with
  | |- time_series ?d ?xc ?yc = Ok ?t /\ _ =>
      assert (H : time_series d xc yc = Ok t) by (vm_compute; reflexivity);
      destruct (time_series_nearest_cell d xc yc t H)
        as (xs & ys & Hx & Hy & Nx & Ny & _)
  end.
  split; [exact H|]. split; [reflexivity|].
  exists xs, ys. done.
Defined.

Lemma Qdiv_le_pos (u v a : Q) : (0 < a)%Q -> (u <= v)%Q -> (u / a <= v / a)%Q.
Proof.
  intros Ha Huv. unfold Qdiv. apply Qmult_le_compat_r; [done|].
  apply Qlt_le_weak, Qinv_lt_0_compat, Ha.
Qed.

Lemma Qdiv_le_neg (u v e : Q) : (e < 0)%Q -> (u <= v)%Q -> (v / e <= u / e)%Q.
Proof.
  intros He Huv.
  assert (E1 : (v / e == (- v) / (- e))%Q) by (field; lra).
  assert (E2 : (u / e == (- u) / (- e))%Q) by (field; lra).
  rewrite E1, E2. apply Qdiv_le_pos; lra.
Qed.





(** ** Lazy array loader *)

Lemma open_rasterio_Ok (store : gmap string rasterio.DatasetReader) (u : string)
    (src : rasterio.DatasetReader) (parse : bool) :
  store !! u = Some src -> (1 <= rasterio.count src)%nat ->
  xr.open_rasterio store u parse = Ok (xr.of_reader src parse).
Proof.
  intros Hu Hc. unfold xr.open_rasterio, rasterio.open. rewrite Hu.
  cbn [mbind result_bind rasterio.count].
  destruct (Nat.ltb_spec (rasterio.count src) 1); [lia|]. reflexivity.
Qed.

Lemma create_dataset_unfold (df : DataFrame) (store : gmap string rasterio.DatasetReader)
    (s0 : rasterio.DatasetReader) (rest : list rasterio.DatasetReader) :
  Forall2 (fun u src => store !! u = Some src) (url df) (s0 :: rest) ->
  Forall (fun src => (1 <= rasterio.count src)%nat) (s0 :: rest) ->
  create_dataset df store
  = xr.concat (xr.of_reader s0 true :: map (fun s => xr.of_reader s false) rest)
      ≫= (fun ds => xr.set_band ds (map Z.of_nat (seq 0 (len df)))).
Proof.
  intros Hst Hc. unfold create_dataset, url_0.
  destruct (url df) as [|u0 us]; [inversion Hst|].
  apply Forall2_cons in Hst as [Hu0 Hus]. apply Forall_cons in Hc as [Hc0 Hcs].
  cbn [mbind result_bind tl]. rewrite (open_rasterio_Ok _ _ _ _ Hu0 Hc0).
  cbn [mbind result_bind].
  rewrite (apply_Forall2 _ us (map (fun s => xr.of_reader s false) rest)); [done|].
  clear Hu0 Hc0. induction Hus as [|u s us rest Hu _ IH]; simpl; [constructor|].
  apply Forall_cons in Hcs as [Hc Hcs]. constructor; [|by apply IH].
  by apply open_rasterio_Ok.
Qed.

Lemma no_mask_of_readers (s0 : rasterio.DatasetReader) (rest : list rasterio.DatasetReader) :
  existsb (fun ds => bool_decide (is_Some (xr.mask ds)))
    (xr.of_reader s0 true :: map (fun s => xr.of_reader s false) rest) = false.
Proof.
  cbn [existsb xr.mask xr.of_reader].
  rewrite bool_decide_eq_false_2 by (intros [? ?]; discriminate).
  cbn [orb]. induction rest as [|s rest IH]; [done|].
  cbn [map existsb xr.mask xr.of_reader].
  rewrite bool_decide_eq_false_2 by (intros [? ?]; discriminate). exact IH.
Qed.

Lemma align_dim_first_labelled {A : Type} (idx : list Q) (l : list A) (dim_sizes : list nat) :
  xr.align_dim (Some idx :: map (fun _ => None) l) dim_sizes
  = if forallb (Nat.eqb (length idx)) dim_sizes then Ok (Some idx) else Raise ValueError.
Proof.
  unfold xr.align_dim.
  assert (E : omap id (Some idx :: map (fun _ : A => @None (list Q)) l) = [idx]).
  { simpl. f_equal. induction l; simpl; done. }
  rewrite E. simpl. reflexivity.
Qed.

Lemma length_pixel_centres (origin step : Q) (n : nat) :
  length (xr.pixel_centres origin step n) = n.
Proof. unfold xr.pixel_centres. by rewrite length_map, length_seq. Qed.

(** What [xr.concat] does with the arrays that [create_dataset] opens:
    the heights and then the widths of all images are compared with the
    first image's; the coordinates are the first image's. *)
Lemma concat_of_readers (s0 : rasterio.DatasetReader) (rest : list rasterio.DatasetReader) :
  xr.concat (xr.of_reader s0 true :: map (fun s => xr.of_reader s false) rest)
  = if forallb (Nat.eqb (rasterio.height s0)) (map rasterio.height (s0 :: rest))
    then
      if forallb (Nat.eqb (rasterio.width s0)) (map rasterio.width (s0 :: rest))
      then
        Ok {| xr.sizes := (sum_list (map rasterio.count (s0 :: rest)),
                           rasterio.height s0, rasterio.width s0);
              xr.band := List.concat
                           (map (fun s => map Z.of_nat (seq 1 (rasterio.count s)))
                                (s0 :: rest));
              xr.y := xr.y (xr.of_reader s0 true);
              xr.x := xr.x (xr.of_reader s0 true);
              xr.mask := None;
              xr.unw := List.concat (map rasterio.bands (s0 :: rest));
              xr.attrs := foldl xr.remove_incompatible_items
                            (xr.attrs (xr.of_reader s0 true))
                            (map (fun s => xr.attrs (xr.of_reader s false)) rest) |}
      else Raise ValueError
    else Raise ValueError.
Proof.
  unfold xr.concat. rewrite no_mask_of_readers.
  set (datasets := xr.of_reader s0 true :: map (fun s => xr.of_reader s false) rest).
  assert (Ey : map xr.y datasets
               = Some (xr.pixel_centres (Affine.f (rasterio.transform s0))
                         (Affine.e (rasterio.transform s0)) (rasterio.height s0))
                 :: map (fun _ => None) rest).
  { unfold datasets. simpl. f_equal. rewrite map_map. reflexivity. }
  assert (Ex : map xr.x datasets
               = Some (xr.pixel_centres (Affine.c (rasterio.transform s0))
                         (Affine.a (rasterio.transform s0)) (rasterio.width s0))
                 :: map (fun _ => None) rest).
  { unfold datasets. simpl. f_equal. rewrite map_map. reflexivity. }
  assert (Sy : map (fun ds => snd (fst (xr.sizes ds))) datasets
               = map rasterio.height (s0 :: rest)).
  { unfold datasets. simpl. f_equal. rewrite map_map. reflexivity. }
  assert (Sx : map (fun ds => snd (xr.sizes ds)) datasets
               = map rasterio.width (s0 :: rest)).
  { unfold datasets. simpl. f_equal. rewrite map_map. reflexivity. }
  assert (Sb : map (fun ds => fst (fst (xr.sizes ds))) datasets
               = map rasterio.count (s0 :: rest)).
  { unfold datasets. simpl. f_equal. rewrite map_map. reflexivity. }
  assert (Eb : map xr.band datasets
               = map (fun s => map Z.of_nat (seq 1 (rasterio.count s))) (s0 :: rest)).
  { unfold datasets. simpl. f_equal. rewrite map_map. reflexivity. }
  assert (Eu : map xr.unw datasets = map rasterio.bands (s0 :: rest)).
  { unfold datasets. simpl. f_equal. rewrite map_map. reflexivity. }
  assert (Ea : map xr.attrs (map (fun s => xr.of_reader s false) rest)
               = map (fun s => xr.attrs (xr.of_reader s false)) rest)
    by (by rewrite map_map).
  rewrite Ey, Ex, Sy, Sx, Sb, Eb, Eu, Ea, !align_dim_first_labelled,
    !length_pixel_centres.
  destruct (forallb (Nat.eqb (rasterio.height s0)) (map rasterio.height (s0 :: rest)));
    [|reflexivity].
  cbn [mbind result_bind].
  destruct (forallb (Nat.eqb (rasterio.width s0)) (map rasterio.width (s0 :: rest)));
    reflexivity.
Qed.

Lemma forallb_eqb_map {A : Type} (g : A -> nat) (n : nat) (l : list A) :
  forallb (Nat.eqb n) (map g l) = true <-> Forall (fun a => g a = n) l.
Proof.
  induction l as [|a l IH]; simpl.
  - split; [constructor | done].
  - rewrite andb_true_iff, Nat.eqb_eq, IH, Forall_cons. intuition congruence.
Qed.

Lemma sum_list_ones {A : Type} (g : A -> nat) (l : list A) :
  Forall (fun a => g a = 1%nat) l -> sum_list (map g l) = length l.
Proof.
  induction 1 as [|a l Ha _ IH]; simpl; [done|]. by rewrite Ha, IH.
Qed.

Lemma length_concat_ones {A B : Type} (g : A -> list B) (l : list A) :
  Forall (fun a => length (g a) = 1%nat) l -> length (List.concat (map g l)) = length l.
Proof.
  induction 1 as [|a l Ha _ IH]; simpl; [done|].
  rewrite length_app, Ha, IH. done.
Qed.

Lemma set_band_Ok (ds : xr.Dataset) (labels : list Z) :
  length labels = fst (fst (xr.sizes ds)) ->
  xr.set_band ds labels
  = Ok {| xr.sizes := xr.sizes ds; xr.band := labels; xr.y := xr.y ds; xr.x := xr.x ds;
          xr.mask := xr.mask ds; xr.unw := xr.unw ds; xr.attrs := xr.attrs ds |}.
Proof. intros H. unfold xr.set_band. by rewrite H, Nat.eqb_refl. Qed.

(** The dataset of single-band images that all have the shape of the
    first one. *)
Lemma create_dataset_same_shape (df : DataFrame)
    (store : gmap string rasterio.DatasetReader)
    (s0 : rasterio.DatasetReader) (rest : list rasterio.DatasetReader) :
  length (url df) = len df ->
  Forall2 (fun u src => store !! u = Some src) (url df) (s0 :: rest) ->
  Forall (fun src => rasterio.count src = 1%nat) (s0 :: rest) ->
  Forall (fun src => same_shape src s0) rest ->
  exists ds,
    create_dataset df store = Ok ds /\
    xr.sizes ds = (len df, rasterio.height s0, rasterio.width s0) /\
    xr.band ds = map Z.of_nat (seq 0 (len df)) /\
    xr.unw ds = List.concat (map rasterio.bands (s0 :: rest)) /\
    xr.y ds = xr.y (xr.of_reader s0 true) /\
    xr.x ds = xr.x (xr.of_reader s0 true).
Proof.
  intros Hlen Hst Hc Hshape.
  assert (Hc1 : Forall (fun src => (1 <= rasterio.count src)%nat) (s0 :: rest)).
  { eapply Forall_impl; [exact Hc|]. simpl. intros; lia. }
  rewrite (create_dataset_unfold _ _ _ _ Hst Hc1), concat_of_readers.
  assert (Hh : forallb (Nat.eqb (rasterio.height s0)) (map rasterio.height (s0 :: rest))
               = true).
  { apply forallb_eqb_map. constructor; [done|].
    eapply Forall_impl; [exact Hshape|]. by intros s [? ?]. }
  assert (Hw : forallb (Nat.eqb (rasterio.width s0)) (map rasterio.width (s0 :: rest))
               = true).
  { apply forallb_eqb_map. constructor; [done|].
    eapply Forall_impl; [exact Hshape|]. by intros s [? ?]. }
  rewrite Hh, Hw. cbn [mbind result_bind].
  assert (Hn : sum_list (map rasterio.count (s0 :: rest)) = len df).
  { rewrite (sum_list_ones _ _ Hc), <- Hlen. symmetry. by eapply Forall2_length. }
  rewrite set_band_Ok by (cbn [xr.sizes fst]; by rewrite length_map, length_seq, Hn).
  eexists. split; [reflexivity|]. cbn [xr.sizes xr.band xr.unw xr.y xr.x].
  by rewrite Hn.
Qed.

Lemma concat_singletons_lookup {A B : Type} (g : A -> list B) (l : list A)
    (k : nat) (a : A) :
  Forall (fun a => length (g a) = 1%nat) l ->
  l !! k = Some a -> List.concat (map g l) !! k = g a !! 0%nat.
Proof.
  intros Hall. revert k. induction Hall as [|a' l Ha _ IH]; intros k Hk; [done|].
  simpl. destruct (g a') as [|b [|b' bs]] eqn:Hg; simpl in Ha; try discriminate.
  destruct k as [|k]; simpl in *.
  - inversion Hk; subst. by rewrite Hg.
  - by apply IH.
Qed.

(** The bands of the dataset are the catalog rows, in catalog order. *)
Lemma create_dataset_band_is_catalog_row (df : DataFrame)
    (store : gmap string rasterio.DatasetReader)
    (s0 : rasterio.DatasetReader) (rest : list rasterio.DatasetReader)
    (ds : xr.Dataset) (k : nat) (u : string) :
  length (url df) = len df ->
  Forall2 (fun u src => store !! u = Some src) (url df) (s0 :: rest) ->
  Forall (fun src => rasterio.count src = 1%nat) (s0 :: rest) ->
  Forall (fun src => length (rasterio.bands src) = 1%nat) (s0 :: rest) ->
  Forall (fun src => same_shape src s0) rest ->
  create_dataset df store = Ok ds ->
  url df !! k = Some u ->
  exists src,
    store !! u = Some src /\
    xr.band ds !! k = Some (Z.of_nat k) /\
    xr.unw ds !! k = rasterio.bands src !! 0%nat.
Proof.
  intros Hlen Hst Hc Hb Hshape Hds Hk.
  destruct (create_dataset_same_shape df store s0 rest Hlen Hst Hc Hshape)
    as (ds' & Hds' & _ & Hband & Hu & _ & _).
  rewrite Hds in Hds'. inversion Hds'; subst ds'; clear Hds'.
  destruct (Forall2_lookup_l _ _ _ _ _ Hst Hk) as (src & Hsrc & Hstore).
  exists src. split; [done|]. split.
  - rewrite Hband. change (map ?g ?l) with (g <$> l).
    rewrite list_lookup_fmap, lookup_seq_lt; [done|].
    rewrite <- Hlen. by eapply lookup_lt_Some.
  - rewrite Hu. by apply concat_singletons_lookup.
Qed.

(** C6. For a catalog of N >= 1 single-band images that all have the
    same height and width, [create_dataset] returns a dataset whose band
    axis has length N and is labelled 0..N-1, whose spatial shape is the
    shape of the images, and whose values are the bands of the images in
    catalog order. *)
Theorem create_dataset_stacks_images (df : DataFrame)
    (store : gmap string rasterio.DatasetReader)
    (srcs : list rasterio.DatasetReader) (h w : nat) :
  length (url df) = len df ->
  srcs <> [] ->
  Forall2 (fun u src => store !! u = Some src) (url df) srcs ->
  Forall (fun src => rasterio.count src = 1%nat /\
                     rasterio.height src = h /\ rasterio.width src = w) srcs ->
  exists ds,
    create_dataset df store = Ok ds /\
    xr.sizes ds = (len df, h, w) /\
    xr.band ds = map Z.of_nat (seq 0 (len df)) /\
    xr.unw ds = List.concat (map rasterio.bands srcs) /\
    (Forall (fun src => length (rasterio.bands src) = rasterio.count src) srcs ->
     length (xr.unw ds) = len df).
Proof.
  intros Hlen Hne Hst Hall. destruct srcs as [|s0 rest]; [done|].
  assert (Hc : Forall (fun src => rasterio.count src = 1%nat) (s0 :: rest)).
  { eapply Forall_impl; [exact Hall|]. simpl. tauto. }
  pose proof Hall as Hall'. apply Forall_cons in Hall' as [(_ & Hh0 & Hw0) Hrest].
  assert (Hshape : Forall (fun src => same_shape src s0) rest).
  { eapply Forall_impl; [exact Hrest|]. unfold same_shape. simpl.
    intros s (_ & ? & ?). split; congruence. }
  destruct (create_dataset_same_shape df store s0 rest Hlen Hst Hc Hshape)
    as (ds & Hds & Hsz & Hb & Hu & _ & _).
  exists ds. rewrite Hh0, Hw0 in Hsz. split_and!; try done.
  intros Hwf. rewrite Hu, length_concat_ones.
  - rewrite <- Hlen. symmetry. by eapply Forall2_length.
  - apply Forall_forall. intros s Hs.
    rewrite Forall_forall in Hwf, Hc. rewrite (Hwf s Hs). by apply Hc.
Qed.

Lemma create_dataset_stacks_images_witness :
  exists ds,
    create_dataset scenario_df (store_of image_1 image_2) = Ok ds /\
    xr.sizes ds = (2, 2, 3)%nat /\
    xr.band ds = [0; 1] /\
    xr.unw ds = [ [ [Num 100; Num 101; Num 102]; [Num 110; Num 111; Num 112] ];
                  [ [Num 200; Num 201; Num 202]; [Num 210; Num 211; Num 212] ] ].
Proof.
  destruct (create_dataset_stacks_images scenario_df (store_of image_1 image_2)
              [image_1; image_2] 2 3) as (ds & H1 & H2 & H3 & H4 & _).
  - reflexivity.
  - discriminate.
  - repeat constructor.
  - repeat constructor.
  - exists ds. done.
Defined.

(** C1, as stated: the second image is on a grid shifted by 3 km east and
    4 km north, and the dataset is built all the same, on the coordinates
    of the first image. *)
Lemma create_dataset_accepts_shifted_grid :
  ~ same_grid image_2_shifted image_1 /\
  exists ds,
    create_dataset scenario_df (store_of image_1 image_2_shifted) = Ok ds /\
    xr.x ds = xr.x (xr.of_reader image_1 true) /\
    xr.y ds = xr.y (xr.of_reader image_1 true) /\
    xr.unw ds = [ [ [Num 100; Num 101; Num 102]; [Num 110; Num 111; Num 112] ];
                  [ [Num 200; Num 201; Num 202]; [Num 210; Num 211; Num 212] ] ].
Proof.
  split.
  - intros (H & _). vm_compute in H. discriminate.
  - eexists. split; [vm_compute; reflexivity|].
    split_and!; vm_compute; reflexivity.
Qed.

(** C1, amended. With every catalog image present in the store and
    holding at least one band: if some image after the first differs from
    the first in height or width, the concatenation raises ValueError and
    no dataset is built; if all single-band images have the height and
    width of the first, the dataset is built on the coordinates of the
    first image, whatever the georeferencing of the others. *)
Theorem create_dataset_checks_shape_only (df : DataFrame)
    (store : gmap string rasterio.DatasetReader)
    (s0 : rasterio.DatasetReader) (rest : list rasterio.DatasetReader) :
  Forall2 (fun u src => store !! u = Some src) (url df) (s0 :: rest) ->
  Forall (fun src => (1 <= rasterio.count src)%nat) (s0 :: rest) ->
  (Exists (fun src => ~ same_shape src s0) rest ->
   create_dataset df store = Raise ValueError) /\
  (length (url df) = len df ->
   Forall (fun src => rasterio.count src = 1%nat) (s0 :: rest) ->
   Forall (fun src => same_shape src s0) rest ->
   exists ds,
     create_dataset df store = Ok ds /\
     xr.y ds = Some (xr.pixel_centres (Affine.f (rasterio.transform s0))
                       (Affine.e (rasterio.transform s0)) (rasterio.height s0)) /\
     xr.x ds = Some (xr.pixel_centres (Affine.c (rasterio.transform s0))
                       (Affine.a (rasterio.transform s0)) (rasterio.width s0))).
Proof.
  intros Hst Hc. split.
  - intros Hex. rewrite (create_dataset_unfold _ _ _ _ Hst Hc), concat_of_readers.
    destruct (forallb (Nat.eqb (rasterio.height s0)) (map rasterio.height (s0 :: rest)))
      eqn:Hh; [|reflexivity].
    destruct (forallb (Nat.eqb (rasterio.width s0)) (map rasterio.width (s0 :: rest)))
      eqn:Hw; [|reflexivity].
    exfalso. apply forallb_eqb_map in Hh, Hw.
    apply Forall_cons in Hh as [_ Hh]. apply Forall_cons in Hw as [_ Hw].
    apply Exists_exists in Hex as (s & Hs & Hns). apply Hns.
    rewrite Forall_forall in Hh, Hw. split; [by apply Hh | by apply Hw].
  - intros Hlen Hc1 Hshape.
    destruct (create_dataset_same_shape df store s0 rest Hlen Hst Hc1 Hshape)
      as (ds & Hds & _ & _ & _ & Hy & Hx).
    exists ds. done.
Qed.

Lemma create_dataset_checks_shape_only_witness :
  create_dataset scenario_df (store_of image_1 image_2_wider) = Raise ValueError /\
  exists ds,
    create_dataset scenario_df (store_of image_1 image_2_shifted) = Ok ds /\
    xr.y ds = Some (xr.pixel_centres 5000 (-30) 2) /\
    xr.x ds = Some (xr.pixel_centres 1000 30 3).
Proof.
  split.
  - apply (create_dataset_checks_shape_only scenario_df
             (store_of image_1 image_2_wider) image_1 [image_2_wider]).
    + repeat constructor.
    + repeat constructor.
    + constructor. intros [_ H]. discriminate.
  - apply (create_dataset_checks_shape_only scenario_df
             (store_of image_1 image_2_shifted) image_1 [image_2_shifted]).
    + repeat constructor.
    + repeat constructor.
    + reflexivity.
    + repeat constructor.
    + repeat constructor.
Defined.

(** * Further properties of the notebook's code *)

(** ** Catalog builder *)



(** X2. The catalog does not depend on the order in which the keys are
    listed: two listings of the same keys give the same result, be it a
    catalog or an exception. *)
Theorem catalog_ignores_listing_order (images images' : list string) :
  images ≡ₚ images' -> make_dataframe images = make_dataframe images'.
Proof.
  intros Hp. unfold make_dataframe.
  assert (E : merge_sort str_le images = merge_sort str_le images').
  { apply sort_values_unique.
    - apply StronglySorted_merge_sort; apply _.
    - by rewrite merge_sort_Permutation. }
  by rewrite E.
Qed.

Lemma catalog_ignores_listing_order_witness :
  make_dataframe scenario_keys = make_dataframe (rev scenario_keys) /\
  make_dataframe (rev scenario_keys) = Ok scenario_df.
Proof.
  split.
  - apply catalog_ignores_listing_order. simpl. apply Permutation_swap.
  - vm_compute. reflexivity.
Defined.

(** ** Lazy array loader *)

Lemma open_rasterio_inv (store : gmap string rasterio.DatasetReader) (u : string)
    (parse : bool) (ds : xr.Dataset) :
  xr.open_rasterio store u parse = Ok ds ->
  exists src,
    store !! u = Some src /\ (1 <= rasterio.count src)%nat /\
    ds = xr.of_reader src parse.
Proof.
  unfold xr.open_rasterio, rasterio.open. intros H.
  destruct (store !! u) as [src|]; [|discriminate].
  cbn [mbind result_bind rasterio.count] in H.
  destruct (Nat.ltb_spec (rasterio.count src) 1); [discriminate|].
  inversion H. exists src. done.
Qed.

Lemma apply_open_inv (store : gmap string rasterio.DatasetReader) (us : list string)
    (dss : list xr.Dataset) :
  apply (fun u => xr.open_rasterio store u false) us = Ok dss ->
  exists srcs,
    Forall2 (fun u src => store !! u = Some src) us srcs /\
    Forall (fun src => (1 <= rasterio.count src)%nat) srcs.
Proof.
  revert dss. induction us as [|u us IH]; intros dss H.
  - exists []. split; constructor.
  - simpl in H.
    destruct (xr.open_rasterio store u false) as [d|] eqn:Hd; [|discriminate].
    destruct (apply _ us) as [ds'|] eqn:Hds; [|discriminate].
    destruct (open_rasterio_inv _ _ _ _ Hd) as (src & Hs & Hc & _).
    destruct (IH ds' eq_refl) as (srcs & Hst & Hcs).
    exists (src :: srcs). split; constructor; done.
Qed.

(** Every successful [create_dataset] is one of the cases of
    [concat_of_readers]. *)
Lemma create_dataset_inv (df : DataFrame) (store : gmap string rasterio.DatasetReader)
    (ds : xr.Dataset) :
  create_dataset df store = Ok ds ->
  exists s0 rest,
    Forall2 (fun u src => store !! u = Some src) (url df) (s0 :: rest) /\
    Forall (fun src => (1 <= rasterio.count src)%nat) (s0 :: rest) /\
    Forall (fun src => same_shape src s0) rest /\
    sum_list (map rasterio.count (s0 :: rest)) = len df /\
    xr.sizes ds = (len df, rasterio.height s0, rasterio.width s0) /\
    xr.band ds = map Z.of_nat (seq 0 (len df)) /\
    xr.unw ds = List.concat (map rasterio.bands (s0 :: rest)) /\
    xr.y ds = xr.y (xr.of_reader s0 true) /\
    xr.x ds = xr.x (xr.of_reader s0 true) /\
    xr.mask ds = None.
Proof.
  intros H. pose proof H as H'. unfold create_dataset, url_0 in H'.
  destruct (url df) as [|u0 us] eqn:Hurl; [discriminate|].
  cbn [mbind result_bind tl] in H'.
  destruct (xr.open_rasterio store u0 true) as [d0|] eqn:Hd0; [|discriminate].
  cbn [mbind result_bind] in H'.
  destruct (apply _ us) as [dss|] eqn:Hdss; [|discriminate].
  destruct (open_rasterio_inv _ _ _ _ Hd0) as (s0 & Hs0 & Hc0 & _).
  destruct (apply_open_inv _ _ _ Hdss) as (rest & Hst & Hcs).
  clear H' Hd0 Hdss.
  assert (Hst' : Forall2 (fun u src => store !! u = Some src) (url df) (s0 :: rest))
    by (rewrite Hurl; by constructor).
  assert (Hc : Forall (fun src => (1 <= rasterio.count src)%nat) (s0 :: rest))
    by (by constructor).
  rewrite (create_dataset_unfold _ _ _ _ Hst' Hc), concat_of_readers in H.
  destruct (forallb (Nat.eqb (rasterio.height s0)) (map rasterio.height (s0 :: rest)))
    eqn:Hh; [|discriminate].
  destruct (forallb (Nat.eqb (rasterio.width s0)) (map rasterio.width (s0 :: rest)))
    eqn:Hw; [|discriminate].
  cbn [mbind result_bind] in H. unfold xr.set_band in H. cbn [xr.sizes fst] in H.
  rewrite length_map, length_seq in H.
  destruct (Nat.eqb_spec (len df) (sum_list (map rasterio.count (s0 :: rest))))
    as [Hn|]; [|discriminate].
  inversion H; subst ds; clear H. cbn [xr.sizes xr.band xr.unw xr.y xr.x xr.mask].
  exists s0, rest. rewrite <- Hurl. split_and!; try done.
  - apply forallb_eqb_map in Hh, Hw.
    apply Forall_cons in Hh as [_ Hh]. apply Forall_cons in Hw as [_ Hw].
    apply Forall_forall. intros s Hs. rewrite Forall_forall in Hh, Hw.
    split; [by apply Hh | by apply Hw].
  - by rewrite Hn.
Qed.

(** X3. Whenever [create_dataset] returns a dataset, the catalog is not
    empty, every catalog URL is in the store, all images have the height
    and width of the first one, the band counts of the images add up to
    the number of catalog rows, and the dataset has that many bands,
    labelled 0, 1, ..., on the grid and coordinates of the first image. *)
Theorem create_dataset_success (df : DataFrame)
    (store : gmap string rasterio.DatasetReader) (ds : xr.Dataset) :
  create_dataset df store = Ok ds ->
  exists s0 rest,
    Forall2 (fun u src => store !! u = Some src) (url df) (s0 :: rest) /\
    Forall (fun src => same_shape src s0) rest /\
    sum_list (map rasterio.count (s0 :: rest)) = len df /\
    xr.sizes ds = (len df, rasterio.height s0, rasterio.width s0) /\
    xr.band ds = map Z.of_nat (seq 0 (len df)) /\
    xr.y ds = Some (xr.pixel_centres (Affine.f (rasterio.transform s0))
                      (Affine.e (rasterio.transform s0)) (rasterio.height s0)) /\
    xr.x ds = Some (xr.pixel_centres (Affine.c (rasterio.transform s0))
                      (Affine.a (rasterio.transform s0)) (rasterio.width s0)) /\
    xr.mask ds = None.
Proof.
  intros H.
  destruct (create_dataset_inv _ _ _ H)
    as (s0 & rest & H1 & _ & H3 & H4 & H5 & H6 & _ & H8 & H9 & H10).
  exists s0, rest. done.
Qed.

Lemma create_dataset_success_witness :
  exists ds s0 rest,
    create_dataset scenario_df (store_of image_1 image_2_shifted) = Ok ds /\
    Forall2 (fun u src => store_of image_1 image_2_shifted !! u = Some src)
      (url scenario_df) (s0 :: rest) /\
    xr.sizes ds = (len scenario_df, rasterio.height s0, rasterio.width s0).
Proof.
  assert (H : exists ds,
             create_dataset scenario_df (store_of image_1 image_2_shifted) = Ok ds)
    by (eexists; vm_compute; reflexivity).
  destruct H as [ds H]. destruct (create_dataset_success _ _ _ H)
    as (s0 & rest & H1 & _ & _ & H4 & _).
  exists ds, s0, rest. done.
Defined.

Lemma sum_list_ge_length {A : Type} (g : A -> nat) (l : list A) :
  Forall (fun a => (1 <= g a)%nat) l -> (length l <= sum_list (map g l))%nat.
Proof.
  induction 1 as [|a l Ha _ IH]; simpl; lia.
Qed.

Lemma sum_list_gt_length {A : Type} (g : A -> nat) (l : list A) :
  Forall (fun a => (1 <= g a)%nat) l -> Exists (fun a => (2 <= g a)%nat) l ->
  (length l < sum_list (map g l))%nat.
Proof.
  induction 1 as [|a l Ha Hl IH]; intros Hex; [by apply Exists_nil in Hex|].
  apply Exists_cons in Hex as [H2|Hex]; simpl.
  - pose proof (sum_list_ge_length g l Hl). lia.
  - specialize (IH Hex). lia.
Qed.

(** X4. The loader assumes single-band images: when every catalog image
    is in the store, holds at least one band, and one of them holds two
    or more, [create_dataset] raises ValueError, because the band axis of
    the concatenation is longer than the catalog. *)
Theorem create_dataset_rejects_multiband (df : DataFrame)
    (store : gmap string rasterio.DatasetReader)
    (srcs : list rasterio.DatasetReader) :
  length (url df) = len df ->
  Forall2 (fun u src => store !! u = Some src) (url df) srcs ->
  Forall (fun src => (1 <= rasterio.count src)%nat) srcs ->
  Exists (fun src => (2 <= rasterio.count src)%nat) srcs ->
  create_dataset df store = Raise ValueError.
Proof.
  intros Hlen Hst Hc Hex. destruct srcs as [|s0 rest]; [by apply Exists_nil in Hex|].
  rewrite (create_dataset_unfold _ _ _ _ Hst Hc), concat_of_readers.
  destruct (forallb _ (map rasterio.height _)); [|reflexivity].
  destruct (forallb _ (map rasterio.width _)); [|reflexivity].
  cbn [mbind result_bind]. unfold xr.set_band. cbn [xr.sizes fst].
  rewrite length_map, length_seq.
  pose proof (sum_list_gt_length rasterio.count _ Hc Hex) as Hgt.
  apply Forall2_length in Hst.
  destruct (Nat.eqb_spec (len df) (sum_list (map rasterio.count (s0 :: rest))));
    [lia | reflexivity].
Qed.

Lemma create_dataset_rejects_multiband_witness :
  create_dataset scenario_df (store_of image_1 image_2_two_bands) = Raise ValueError.
Proof.
  apply (create_dataset_rejects_multiband scenario_df _ [image_1; image_2_two_bands]).
  - reflexivity.
  - repeat constructor.
  - repeat constructor.
  - apply Exists_cons_tl, Exists_cons_hd. simpl. lia.
Defined.

(** ** Mask applier *)

(** X5. Masking replaces values, it does not clip: the masked dataset has
    the dimension sizes, coordinates, mask layer and number of bands of
    the input, and on every band a cell holds NaN where the mask is true
    and its former value where the mask is false. *)
Theorem where_mask_cells (ds masked : xr.Dataset) :
  where_mask_False ds = Ok masked ->
  xr.sizes masked = xr.sizes ds /\ xr.band masked = xr.band ds /\
  xr.y masked = xr.y ds /\ xr.x masked = xr.x ds /\
  xr.mask masked = xr.mask ds /\
  length (xr.unw masked) = length (xr.unw ds) /\
  forall (m : list (list bool)) (k r c : nat) (arr : list (list pixel))
         (row : list pixel) (v : pixel) (mrow : list bool) (b : bool),
    xr.mask ds = Some m ->
    xr.unw ds !! k = Some arr -> arr !! r = Some row -> row !! c = Some v ->
    m !! r = Some mrow -> mrow !! c = Some b ->
    exists arr' row',
      xr.unw masked !! k = Some arr' /\ arr' !! r = Some row' /\
      row' !! c = Some (if b then NaN else v).
Proof.
  unfold where_mask_False, xr.get_mask. intros H.
  destruct (xr.mask ds) as [m0|] eqn:Hm; [|discriminate].
  cbn [mbind result_bind] in H. inversion H; subst masked; clear H.
  cbn [xr.where_ xr.sizes xr.band xr.y xr.x xr.mask xr.unw].
  split_and!; try done.
  - by rewrite length_map.
  - intros m k r c arr row v mrow b Hm' Hk Hr Hc Hmr Hmc.
    inversion Hm'; subst m0; clear Hm'.
    eexists _, _. split_and!.
    + change (map ?g ?l) with (g <$> l). rewrite list_lookup_fmap, Hk. reflexivity.
    + unfold rasterio.map2d2, xr.eq_False. rewrite lookup_zip_with, Hr. simpl.
      change (map ?g ?l) with (g <$> l). rewrite list_lookup_fmap, Hmr. reflexivity.
    + rewrite lookup_zip_with, Hc. simpl.
      change (map ?g ?l) with (g <$> l). rewrite list_lookup_fmap, Hmc. simpl.
      by destruct b.
Qed.

Lemma where_mask_cells_witness :
  exists DS DS' masked,
    create_dataset scenario_df (store_of image_1 image_2) = Ok DS /\
    add_mask scenario_df (store_of image_1 image_2) west_of_1070 DS = Ok (DS', masked) /\
    where_mask_False DS' = Ok masked /\
    xr.sizes masked = xr.sizes DS' /\
    length (xr.unw masked) = length (xr.unw DS').
Proof.
  eexists _, _, _.
  split; [vm_compute; reflexivity|].
  split; [vm_compute; reflexivity|].
  match goal with
  | |- where_mask_False ?d = Ok ?m /\ _ =>
      assert (H : where_mask_False d = Ok m) by (vm_compute; reflexivity);
      destruct (where_mask_cells d m H) as (H1 & _ & _ & _ & _ & H6 & _)
  end.
  split; [exact H|]. split; [exact H1 | exact H6].
Defined.

(** ** Region extractor *)

(** What [save_current_view] writes does not depend on the files that
    exist already. *)
Lemma save_current_view_inv (df : DataFrame) (store : gmap string rasterio.DatasetReader)
    (img : DynamicMap) (fs fs' : gmap string rasterio.LocalRaster) (localname : string) :
  save_current_view df store img fs = Ok (localname, fs') ->
  exists written,
    fs' = <[localname := written]> fs /\
    forall fs0, save_current_view df store img fs0
                = Ok (localname, <[localname := written]> fs0).
Proof.
  intros H. pose proof H as H'. unfold save_current_view in H'.
  inv_bind H'. inv_bind H'. inv_bind H'. inv_bind H'. inv_bind H'.
  inversion H'; subst; clear H'.
  unfold write_raster in Hv3.
  destruct (update_profile _ _ _ !! "height") as [[| h | | |]|] eqn:Eh; try discriminate.
  destruct (update_profile _ _ _ !! "width") as [[| w | | |]|] eqn:Ew; try discriminate.
  destruct ((h <=? 0) || (w <=? 0)) eqn:Ez; [discriminate|].
  inversion Hv3; subst fs'; clear Hv3.
  eexists. split; [reflexivity|]. intros fs0.
  unfold save_current_view. rewrite Hv. cbn [mbind result_bind].
  rewrite Hv0. cbn [mbind result_bind]. rewrite Hv1. cbn [mbind result_bind].
  rewrite Hv2. cbn [mbind result_bind]. unfold write_raster.
  rewrite Eh, Ew, Ez. reflexivity.
Qed.

(** X6. [save_current_view] creates or replaces the one file it names
    and leaves every other local file as it was; saving the same view
    again returns the same name and changes nothing. *)
Theorem save_current_view_touches_one_file (df : DataFrame)
    (store : gmap string rasterio.DatasetReader) (img : DynamicMap)
    (fs fs' : gmap string rasterio.LocalRaster) (localname : string) :
  save_current_view df store img fs = Ok (localname, fs') ->
  is_Some (fs' !! localname) /\
  (forall other, other <> localname -> fs' !! other = fs !! other) /\
  save_current_view df store img fs' = Ok (localname, fs').
Proof.
  intros H. destruct (save_current_view_inv _ _ _ _ _ _ H) as (written & -> & Hany).
  split_and!.
  - rewrite lookup_insert_eq. eauto.
  - intros other Hne. by rewrite lookup_insert_ne.
  - rewrite Hany. by rewrite insert_insert_eq.
Qed.

Lemma save_current_view_touches_one_file_witness :
  exists fs',
    save_current_view scenario_df (store_of image_1 image_2) view_inside ∅
      = Ok ("subset-20200101-20200115-unw.tif", fs') /\
    save_current_view scenario_df (store_of image_1 image_2) view_inside fs'
      = Ok ("subset-20200101-20200115-unw.tif", fs').
Proof.
  assert (H : exists fs',
             save_current_view scenario_df (store_of image_1 image_2) view_inside ∅
             = Ok ("subset-20200101-20200115-unw.tif", fs'))
    by (eexists; vm_compute; reflexivity).
  destruct H as [fs' H]. exists fs'. split; [exact H|].
  apply (save_current_view_touches_one_file _ _ _ _ _ _ H).
Defined.

Lemma crop_inside (w : rasterio.windows.Window) (h wd : Z) :
  0 <= rasterio.windows.row_off w -> 0 <= rasterio.windows.col_off w ->
  0 <= rasterio.windows.height w -> 0 <= rasterio.windows.width w ->
  rasterio.windows.row_off w + rasterio.windows.height w <= h ->
  rasterio.windows.col_off w + rasterio.windows.width w <= wd ->
  rasterio.windows.crop w h wd = w.
Proof.
  intros. destruct w as [co ro wi he]. unfold rasterio.windows.crop. simpl in *.
  f_equal; lia.
Qed.

Lemma slice_lookup {A : Type} (start len : Z) (l : list A) (i : nat) :
  0 <= start -> (Z.of_nat i < len) ->
  rasterio.slice start len l !! i = l !! (Z.to_nat start + i)%nat.
Proof.
  intros Hs Hi. unfold rasterio.slice.
  rewrite lookup_take_lt by lia. by rewrite lookup_drop.
Qed.

(** X7. For a window that lies inside the raster, the read returns the
    pixels of the window: cell (r, c) of the data is cell
    (row_off + r, col_off + c) of band 1, and the window transform gives
    that cell the world coordinates it has in the source. *)
Theorem read_window_inside (src : rasterio.DatasetReader)
    (w : rasterio.windows.Window) (data : list (list pixel)) :
  0 <= rasterio.windows.row_off w -> 0 <= rasterio.windows.col_off w ->
  0 <= rasterio.windows.height w -> 0 <= rasterio.windows.width w ->
  rasterio.windows.row_off w + rasterio.windows.height w
    <= Z.of_nat (rasterio.height src) ->
  rasterio.windows.col_off w + rasterio.windows.width w
    <= Z.of_nat (rasterio.width src) ->
  rasterio.read src 1 w = Ok data ->
  exists arr,
    rasterio.bands src !! 0%nat = Some arr /\
    (forall (r c : nat),
       Z.of_nat r < rasterio.windows.height w ->
       Z.of_nat c < rasterio.windows.width w ->
       data !! r ≫= (fun row => row !! c)
       = arr !! (Z.to_nat (rasterio.windows.row_off w) + r)%nat
           ≫= (fun row => row !! (Z.to_nat (rasterio.windows.col_off w) + c)%nat)) /\
    (forall (col row : Q),
       (fst (Affine.apply (rasterio.window_transform src w) col row)
        == fst (Affine.apply (rasterio.transform src)
                  (col + inject_Z (rasterio.windows.col_off w)) row))%Q /\
       (snd (Affine.apply (rasterio.window_transform src w) col row)
        == snd (Affine.apply (rasterio.transform src)
                  col (row + inject_Z (rasterio.windows.row_off w))))%Q).
Proof.
  intros Hr0 Hc0 Hh Hw Hrh Hcw Hread. unfold rasterio.read in Hread.
  destruct (rasterio.bands src !! 0%nat) as [arr|]; [|discriminate].
  rewrite crop_inside in Hread by done. inversion Hread; subst data; clear Hread.
  exists arr. split; [done|]. split.
  - intros r c Hr Hc. change (map ?g ?l) with (g <$> l).
    rewrite list_lookup_fmap, slice_lookup by done.
    destruct (arr !! (Z.to_nat (rasterio.windows.row_off w) + r)%nat) as [row|];
      simpl; [|done].
    by apply slice_lookup.
  - intros col row. unfold rasterio.window_transform, Affine.translate, Affine.apply.
    simpl. split; ring.
Qed.

Lemma read_window_inside_witness :
  exists data arr,
    rasterio.read image_1 1 (rasterio.windows.mk_Window 1 0 2 1) = Ok data /\
    rasterio.bands image_1 !! 0%nat = Some arr /\
    data !! 0%nat ≫= (fun row => row !! 1%nat)
    = arr !! 0%nat ≫= (fun row => row !! 2%nat).
Proof.
  assert (H : exists data,
             rasterio.read image_1 1 (rasterio.windows.mk_Window 1 0 2 1) = Ok data)
    by (eexists; vm_compute; reflexivity).
  destruct H as [data H].
  destruct (read_window_inside image_1 (rasterio.windows.mk_Window 1 0 2 1) data)
    as (arr & Harr & Hcell & _); try (simpl; lia); [exact H|].
  exists data, arr. split; [exact H|]. split; [exact Harr|].
  apply (Hcell 0%nat 1%nat); simpl; lia.
Defined.





Lemma list_ascii_of_string_app (s1 s2 : string) :
  list_ascii_of_string (s1 +:+ s2) = list_ascii_of_string s1 ++ list_ascii_of_string s2.
Proof. induction s1 as [|ch s1 IH]; simpl; [done|]. by rewrite IH. Qed.

Lemma basename_aux_no_sep (cs acc : list ascii) :
  ~ In "/"%char cs -> basename_aux cs acc = acc ++ cs.
Proof.
  revert acc. induction cs as [|ch cs IH]; intros acc Hn; simpl.
  - by rewrite app_nil_r.
  - destruct (Ascii.eqb_spec ch "/") as [->|_].
    + exfalso. apply Hn. by left.
    + rewrite IH by (intros Hin; apply Hn; by right).
      by rewrite <- app_assoc.
Qed.

Lemma basename_aux_after_sep (dir file acc : list ascii) :
  ~ In "/"%char file -> basename_aux (dir ++ "/"%char :: file) acc = file.
Proof.
  intros Hn. revert acc. induction dir as [|ch dir IH]; intros acc; simpl.
  - apply basename_aux_no_sep, Hn.
  - destruct (Ascii.eqb ch "/"); apply IH.
Qed.

Lemma basename_join (dir file : string) :
  ~ In "/"%char (list_ascii_of_string file) ->
  basename (dir +:+ "/" +:+ file) = file.
Proof.
  intros Hn. unfold basename. rewrite list_ascii_of_string_app. simpl.
  rewrite basename_aux_after_sep by done. apply string_of_list_ascii_of_string.
Qed.

Lemma save_current_view_name (df : DataFrame) (store : gmap string rasterio.DatasetReader)
    (img : DynamicMap) (fs fs' : gmap string rasterio.LocalRaster) (localname : string) :
  save_current_view df store img fs = Ok (localname, fs') ->
  exists image_url,
    url df !! callback_args img = Some image_url /\
    is_Some (store !! image_url) /\
    localname = "subset-" +:+ basename image_url.
Proof.
  unfold save_current_view. intros H.
  inv_bind H. inv_bind H. inv_bind H. inv_bind H. inv_bind H.
  inversion H; subst; clear H. exists v.
  unfold get_src, url_iloc in Hv.
  destruct (url df !! callback_args img) as [u|]; [|discriminate].
  inversion Hv; subst u. rewrite (open_name _ _ _ Hv0).
  split; [done|]. split; [|done].
  unfold rasterio.open in Hv0. destruct (store !! v); [eauto | discriminate].
Qed.

(** X9. The file that [save_current_view] writes is named after the last
    path component of the URL of the displayed catalog row, whatever the
    directories before it: for a URL [dir/file] the name is [subset-file].
    The displayed band index must be a row of the catalog and its URL
    must be in the store. *)
Theorem save_current_view_local_name (df : DataFrame)
    (store : gmap string rasterio.DatasetReader) (img : DynamicMap)
    (fs fs' : gmap string rasterio.LocalRaster) (localname dir file : string) :
  save_current_view df store img fs = Ok (localname, fs') ->
  url df !! callback_args img = Some (dir +:+ "/" +:+ file) ->
  ~ In "/"%char (list_ascii_of_string file) ->
  localname = "subset-" +:+ file /\
  (callback_args img < length (url df))%nat /\
  is_Some (store !! (dir +:+ "/" +:+ file)).
Proof.
  intros H Hu Hn. destruct (save_current_view_name _ _ _ _ _ _ H) as (u & Hu' & Hs & ->).
  rewrite Hu in Hu'. inversion Hu'; subst u.
  split; [by rewrite basename_join|]. split; [|done].
  by eapply lookup_lt_Some.
Qed.

Lemma save_current_view_local_name_witness :
  exists fs',
    save_current_view scenario_df (store_of image_1 image_2) view_inside ∅
      = Ok ("subset-20200101-20200115-unw.tif", fs') /\
    (callback_args view_inside < length (url scenario_df))%nat.
Proof.
  assert (H : exists fs',
             save_current_view scenario_df (store_of image_1 image_2) view_inside ∅
             = Ok ("subset-20200101-20200115-unw.tif", fs'))
    by (eexists; vm_compute; reflexivity).
  destruct H as [fs' H]. exists fs'. split; [exact H|].
  apply (save_current_view_local_name _ _ _ _ _ _
           "http://storage.googleapis.com/p/b" "20200101-20200115-unw.tif" H).
  - reflexivity.
  - vm_compute. intros Hin. repeat (destruct Hin as [Hin|Hin]; [discriminate|]). done.
Defined.

(** ** Series extractor on the coordinates of the loader *)

Lemma pixel_centres_lookup (origin step : Q) (n i : nat) :
  (i < n)%nat ->
  xr.pixel_centres origin step n !! i
  = Some (origin + step * (inject_Z (Z.of_nat i) + (1 # 2)))%Q.
Proof.
  intros Hi. unfold xr.pixel_centres. change (map ?g ?l) with (g <$> l).
  by rewrite list_lookup_fmap, lookup_seq_lt.
Qed.

Lemma map_seq_monotonic (inc : bool) (g : nat -> Q) (start n : nat) :
  (forall i, sord inc (g i) (g (S i))) ->
  monotonic inc (map g (seq start n)) = true.
Proof.
  intros Hg. revert start. induction n as [|n IH]; intros start; [by destruct inc|].
  specialize (IH (S start)). destruct n as [|n]; [by destruct inc|].
  change (seq start (S (S n))) with (start :: seq (S start) (S n)).
  change (seq (S start) (S n)) with (S start :: seq (S (S start)) n) in *.
  specialize (Hg start).
  destruct inc; simpl in *; apply andb_true_iff; (split; [by apply Qltb_lt | exact IH]).
Qed.

Lemma pixel_centres_monotonic (origin step : Q) (n : nat) :
  ~ (step == 0)%Q ->
  monotonic (Qle_bool 0 step) (xr.pixel_centres origin step n) = true.
Proof.
  intros Hs. unfold xr.pixel_centres. apply map_seq_monotonic. intros i.
  rewrite Nat2Z.inj_succ. unfold Z.succ. rewrite inject_Z_plus.
  change (inject_Z 1) with 1%Q.
  destruct (Qle_bool 0 step) eqn:E; simpl.
  - apply Qle_bool_iff in E. nra.
  - apply Qle_bool_gt in E. nra.
Qed.

Lemma pixel_centres_lookup_total (origin step : Q) (n : nat) (t : Q) :
  ~ (step == 0)%Q -> (0 < n)%nat ->
  exists i, pd.get_loc_nearest (xr.pixel_centres origin step n) t = Ok i.
Proof.
  intros Hs Hn. apply get_loc_nearest_total.
  - intros E. apply (f_equal length) in E. rewrite length_pixel_centres in E.
    simpl in E. lia.
  - pose proof (pixel_centres_monotonic origin step n Hs) as Hm.
    destruct (Qle_bool 0 step); [by left | by right].
Qed.

(** Some pixel centre is within half a pixel of a target that lies
    between the two ends of the axis. *)
Lemma centre_within_half_pixel (origin step : Q) (n : nat) (t : Q) :
  ~ (step == 0)%Q -> (0 < n)%nat ->
  (0 <= (t - origin) / step)%Q -> ((t - origin) / step <= inject_Z (Z.of_nat n))%Q ->
  exists j, (j < n)%nat /\
    (Qabs (origin + step * (inject_Z (Z.of_nat j) + (1 # 2)) - t)
     <= Qabs step * (1 # 2))%Q.
Proof.
  intros Hs Hn Hq0 Hqn. set (q := ((t - origin) / step)%Q) in *.
  assert (Ht : (t == origin + step * q)%Q) by (unfold q; field; exact Hs).
  pose proof (Qfloor_le q) as F1. pose proof (Qlt_floor q) as F2.
  rewrite inject_Z_plus in F2. change (inject_Z 1) with 1%Q in F2.
  assert (Hk0 : 0 <= Qfloor q).
  { change 0 with (Qfloor 0). by apply Qfloor_resp_le. }
  assert (Hcase : exists j, (j < n)%nat /\
            (Qabs (inject_Z (Z.of_nat j) + (1 # 2) - q) <= 1 # 2)%Q).
  { destruct (Z_lt_le_dec (Qfloor q) (Z.of_nat n)) as [Hlt|Hge].
    - exists (Z.to_nat (Qfloor q)). split; [lia|].
      rewrite Z2Nat.id by done. apply Qabs_Qle_condition. split; lra.
    - exists (n - 1)%nat. split; [lia|].
      assert (Hk : (inject_Z (Z.of_nat n) <= inject_Z (Qfloor q))%Q)
        by (by rewrite <- Zle_Qle).
      replace (Z.of_nat (n - 1)) with (Z.of_nat n - 1) by lia.
      unfold Z.sub. rewrite inject_Z_plus. change (inject_Z (- (1))) with (- (1))%Q.
      apply Qabs_Qle_condition. split; lra. }
  destruct Hcase as (j & Hj & Hd). exists j. split; [done|].
  assert (E : (origin + step * (inject_Z (Z.of_nat j) + (1 # 2)) - t
               == step * (inject_Z (Z.of_nat j) + (1 # 2) - q))%Q)
    by (rewrite Ht; ring).
  rewrite E, Qabs_Qmult, (Qmult_comm (Qabs step)), (Qmult_comm (Qabs step)).
  apply Qmult_le_compat_r; [exact Hd | apply Qabs_nonneg].
Qed.

Lemma nearest_centre_within_half_pixel (origin step : Q) (n i : nat) (t : Q) :
  ~ (step == 0)%Q -> (0 < n)%nat ->
  (0 <= (t - origin) / step)%Q -> ((t - origin) / step <= inject_Z (Z.of_nat n))%Q ->
  is_nearest (xr.pixel_centres origin step n) t i ->
  (Qabs (nth i (xr.pixel_centres origin step n) 0%Q - t) <= Qabs step * (1 # 2))%Q.
Proof.
  intros Hs Hn Hq0 Hqn [_ Hnear].
  destruct (centre_within_half_pixel origin step n t Hs Hn Hq0 Hqn) as (j & Hj & Hd).
  specialize (Hnear j ltac:(by rewrite length_pixel_centres)).
  unfold pd.distance in Hnear.
  rewrite (nth_lookup_Some _ j 0%Q _ (pixel_centres_lookup origin step n j Hj)) in Hnear.
  eapply Qle_trans; [exact Hnear | exact Hd].
Qed.

(** X10. On a dataset that carries the coordinates the loader gives a
    non-empty north-up raster, point extraction succeeds for every
    target, and for a target inside the bounds of the raster the selected
    cell centre is within half a pixel of the target on each axis. *)
Theorem time_series_within_half_pixel (ds : xr.Dataset) (src : rasterio.DatasetReader)
    (xcen ycen : Q) :
  xr.x ds = xr.x (xr.of_reader src true) ->
  xr.y ds = xr.y (xr.of_reader src true) ->
  (0 < Affine.a (rasterio.transform src))%Q ->
  (Affine.e (rasterio.transform src) < 0)%Q ->
  (0 < rasterio.width src)%nat -> (0 < rasterio.height src)%nat ->
  exists ts,
    time_series ds xcen ycen = Ok ts /\
    ((Affine.c (rasterio.transform src) <= xcen)%Q ->
     (xcen <= Affine.c (rasterio.transform src)
              + Affine.a (rasterio.transform src)
                * inject_Z (Z.of_nat (rasterio.width src)))%Q ->
     (Qabs (xr.ps_x ts - xcen) <= Affine.a (rasterio.transform src) * (1 # 2))%Q) /\
    ((Affine.f (rasterio.transform src)
      + Affine.e (rasterio.transform src)
        * inject_Z (Z.of_nat (rasterio.height src)) <= ycen)%Q ->
     (ycen <= Affine.f (rasterio.transform src))%Q ->
     (Qabs (xr.ps_y ts - ycen) <= - Affine.e (rasterio.transform src) * (1 # 2))%Q).
Proof.
  intros Hx Hy Ha He Hw Hh. cbn [xr.x xr.y xr.of_reader] in Hx, Hy.
  set (tr := rasterio.transform src) in *.
  assert (Ha0 : ~ (Affine.a tr == 0)%Q) by lra.
  assert (He0 : ~ (Affine.e tr == 0)%Q) by lra.
  destruct (pixel_centres_lookup_total (Affine.c tr) (Affine.a tr) _ xcen Ha0 Hw)
    as [ix Hix].
  destruct (pixel_centres_lookup_total (Affine.f tr) (Affine.e tr) _ ycen He0 Hh)
    as [iy Hiy].
  pose proof (get_loc_nearest_spec _ _ _ Hix) as Nx.
  pose proof (get_loc_nearest_spec _ _ _ Hiy) as Ny.
  eexists. split.
  { unfold time_series, xr.sel_nearest. rewrite Hx, Hy, Hix. cbn [mbind result_bind].
    rewrite Hiy. cbn [mbind result_bind]. reflexivity. }
  cbn [xr.ps_x xr.ps_y]. split.
  - intros H1 H2.
    assert (Eabs : (Qabs (Affine.a tr) == Affine.a tr)%Q) by (apply Qabs_pos; lra).
    rewrite <- Eabs at 2.
    apply nearest_centre_within_half_pixel; try done.
    + assert (E0 : (0 == 0 / Affine.a tr)%Q) by (field; done).
      rewrite E0. apply Qdiv_le_pos; [done | lra].
    + assert (E1 : (inject_Z (Z.of_nat (rasterio.width src))
                    == (Affine.a tr * inject_Z (Z.of_nat (rasterio.width src)))
                       / Affine.a tr)%Q) by (field; done).
      rewrite E1. apply Qdiv_le_pos; [done | lra].
  - intros H1 H2.
    assert (Eabs : (Qabs (Affine.e tr) == - Affine.e tr)%Q) by (apply Qabs_neg; lra).
    rewrite <- Eabs.
    apply nearest_centre_within_half_pixel; try done.
    + assert (E0 : (0 == 0 / Affine.e tr)%Q) by (field; done).
      rewrite E0. apply Qdiv_le_neg; [done | lra].
    + assert (E1 : (inject_Z (Z.of_nat (rasterio.height src))
                    == (Affine.e tr * inject_Z (Z.of_nat (rasterio.height src)))
                       / Affine.e tr)%Q) by (field; done).
      rewrite E1. apply Qdiv_le_neg; [done | lra].
Qed.

Lemma time_series_within_half_pixel_witness :
  exists ds ts,
    create_dataset scenario_df (store_of image_1 image_2) = Ok ds /\
    time_series ds 1046 4960 = Ok ts /\
    (Qabs (xr.ps_x ts - 1046) <= 30 * (1 # 2))%Q /\
    (Qabs (xr.ps_y ts - 4960) <= - - (30) * (1 # 2))%Q.
Proof.
  assert (H : exists ds, create_dataset scenario_df (store_of image_1 image_2) = Ok ds
                         /\ xr.x ds = xr.x (xr.of_reader image_1 true)
                         /\ xr.y ds = xr.y (xr.of_reader image_1 true))
    by (eexists; split_and!; vm_compute; reflexivity).
  destruct H as (ds & Hds & Hx & Hy).
  destruct (time_series_within_half_pixel ds image_1 1046 4960 Hx Hy)
    as (ts & Hts & Bx & By); try (vm_compute; reflexivity); try (simpl; lia).
  exists ds, ts. split; [exact Hds|]. split; [exact Hts|]. split.
  - apply Bx; vm_compute; discriminate.
  - apply By; vm_compute; discriminate.
Defined.

(** ** Selection of the visible region *)











Lemma pyslice_zip_with {A B C : Type} (g : A -> B -> C) (lo hi : nat)
    (l : list A) (k : list B) :
  pyslice lo hi (zip_with g l k) = zip_with g (pyslice lo hi l) (pyslice lo hi k).
Proof. unfold pyslice. by rewrite <- zip_with_take, <- zip_with_drop. Qed.

Lemma map_zip_with_rows {A B C : Type} (g : A -> B -> C) (h : forall T, list T -> list T)
    (m1 : list (list A)) (m2 : list (list B)) :
  (forall l k, h C (zip_with g l k) = zip_with g (h A l) (h B k)) ->
  map (h C) (zip_with (zip_with g) m1 m2)
  = zip_with (zip_with g) (map (h A) m1) (map (h B) m2).
Proof.
  intros Hh. revert m2. induction m1 as [|r1 m1 IH]; intros [|r2 m2]; simpl; try done.
  by rewrite Hh, IH.
Qed.

(** Cutting out a window commutes with cell-wise combination. *)
Lemma window_map2d2 {A B C : Type} (g : A -> B -> C) (x0 x1 y0 y1 : nat)
    (m1 : list (list A)) (m2 : list (list B)) :
  map (pyslice x0 x1) (pyslice y0 y1 (rasterio.map2d2 g m1 m2))
  = rasterio.map2d2 g (map (pyslice x0 x1) (pyslice y0 y1 m1))
      (map (pyslice x0 x1) (pyslice y0 y1 m2)).
Proof.
  unfold rasterio.map2d2. rewrite pyslice_zip_with.
  apply (map_zip_with_rows g (fun T => @pyslice T x0 x1)).
  intros l k. apply pyslice_zip_with.
Qed.

Lemma pyslice_map {A B : Type} (g : A -> B) (lo hi : nat) (l : list A) :
  pyslice lo hi (map g l) = map g (pyslice lo hi l).
Proof. unfold pyslice. by rewrite skipn_map, firstn_map. Qed.

Lemma window_eq_False (x0 x1 y0 y1 : nat) (m : list (list bool)) :
  xr.eq_False (map (pyslice x0 x1) (pyslice y0 y1 m))
  = map (pyslice x0 x1) (pyslice y0 y1 (xr.eq_False m)).
Proof.
  unfold xr.eq_False. rewrite pyslice_map, !map_map.
  apply map_ext. intros row. by rewrite pyslice_map.
Qed.

Lemma map_id_on_omap {A B : Type} (F : B -> B) (G : A -> option B) (l : list A) :
  (forall a b, G a = Some b -> F b = b) -> map F (omap G l) = omap G l.
Proof.
  intros H. induction l as [|a l IH]; simpl; [done|].
  destruct (G a) as [b|] eqn:E; simpl; [|exact IH].
  change (list_omap A B G l) with (omap G l). by rewrite (H a b E), IH.
Qed.

Lemma where_mask_fixed (ds : xr.Dataset) (m : list (list bool)) :
  xr.mask ds = Some m ->
  map (fun arr => rasterio.map2d2 (fun (v : pixel) (keep : bool) =>
                                     if keep then v else NaN) arr (xr.eq_False m))
      (xr.unw ds) = xr.unw ds ->
  where_mask_False ds = Ok ds.
Proof.
  destruct ds as [sz b y x mk u at_]. cbn [xr.mask xr.unw]. intros -> E.
  unfold where_mask_False, xr.get_mask, xr.where_. cbn. by rewrite E.
Qed.

(** X12. A region selected from a masked dataset is still masked:
    applying the mask to it again, as the stack cell does, returns it
    unchanged, so the stack is the mean over the bands of the selected
    region itself. *)
Theorem remask_of_selection_is_noop (ds masked view : xr.Dataset)
    (selection : Selection) :
  where_mask_False ds = Ok masked ->
  sel masked selection = Ok view ->
  where_mask_False view = Ok view /\ stack view = Ok (mean_band view).
Proof.
  unfold where_mask_False at 1, xr.get_mask. intros Hm Hs.
  destruct (xr.mask ds) as [m|] eqn:Hmask; [|discriminate].
  cbn [mbind result_bind] in Hm. inversion Hm; subst masked; clear Hm.
  unfold sel in Hs. cbn [xr.where_ xr.x xr.y xr.mask xr.unw xr.band] in Hs.
  destruct (xr.x ds) as [xs|]; [|discriminate].
  destruct (xr.y ds) as [ys|]; [|discriminate].
  inv_bind Hs. destruct v as [x0 x1]. inv_bind Hs. destruct v as [y0 y1].
  inv_bind Hs. rewrite Hmask in Hs. inversion Hs; subst view; clear Hs.
  assert (E : forall d, where_mask_False d = Ok d -> stack d = Ok (mean_band d)).
  { intros d Hd. unfold stack. by rewrite Hd. }
  match goal with |- where_mask_False ?d = _ /\ _ =>
    assert (Hfix : where_mask_False d = Ok d); [|split; [exact Hfix | exact (E d Hfix)]]
  end.
  eapply where_mask_fixed; [reflexivity|]. cbn [xr.unw].
  apply map_id_on_omap. intros k b Hk.
  change (map ?g ?l) with (g <$> l) in Hk. rewrite list_lookup_fmap in Hk.
  destruct (xr.unw ds !! k) as [arr|]; [|discriminate]. simpl in Hk.
  inversion Hk; subst b; clear Hk.
  rewrite window_eq_False, window_map2d2. apply map2d2_keep_idem.
Qed.

Lemma remask_of_selection_is_noop_witness :
  exists DS DS' masked view,
    create_dataset scenario_df (store_of image_1 image_2) = Ok DS /\
    add_mask scenario_df (store_of image_1 image_2) west_of_1070 DS = Ok (DS', masked) /\
    select_view limits_inside view_inside masked = Ok view /\
    where_mask_False view = Ok view /\
    stack view = Ok [ [Num ((101 + 201) / 2); NaN] ].
Proof.
  assert (H : exists DS DS' masked view,
             create_dataset scenario_df (store_of image_1 image_2) = Ok DS
             /\ add_mask scenario_df (store_of image_1 image_2) west_of_1070 DS
                = Ok (DS', masked)
             /\ where_mask_False DS' = Ok masked
             /\ select_view limits_inside view_inside masked = Ok view
             /\ sel masked (mk_Selection (1040%Q, 1080%Q) (4990%Q, 4970%Q) None) = Ok view
             /\ mean_band view = [ [Num ((101 + 201) / 2); NaN] ])
    by (eexists _, _, _, _; split_and!; vm_compute; reflexivity).
  destruct H as (DS & DS' & masked & view & H1 & H2 & H3 & H4 & H5 & H6).
  destruct (remask_of_selection_is_noop DS' masked view _ H3 H5) as [Hw Hst].
  exists DS, DS', masked, view. rewrite H6 in Hst. done.
Defined.

(** ** Stack *)

Lemma getitem2_masked (arr : list (list pixel)) (m : list (list bool)) (r c : nat)
    (mrow : list bool) :
  m !! r = Some mrow -> mrow !! c = Some true ->
  getitem2 NaN
    (rasterio.map2d2 (fun (v : pixel) (keep : bool) => if keep then v else NaN)
       arr (xr.eq_False m)) r c = NaN.
Proof.
  intros Hr Hc. unfold getitem2, rasterio.map2d2, xr.eq_False.
  rewrite !nth_lookup, lookup_zip_with.
  change (map ?g ?l) with (g <$> l). rewrite list_lookup_fmap, Hr.
  destruct (arr !! r) as [row|]; simpl; [|done].
  rewrite lookup_zip_with. change (map ?g ?l) with (g <$> l).
  rewrite list_lookup_fmap, Hc. by destruct (row !! c).
Qed.

Lemma nanmean_all_nan (vs : list pixel) :
  Forall (fun v => v = NaN) vs -> nanmean vs = NaN.
Proof.
  intros H. unfold nanmean.
  assert (E : omap valid vs = []).
  { induction H as [|v vs -> _ IH]; simpl; [done | exact IH]. }
  by rewrite E.
Qed.

(** X13. The stack has the spatial shape of the dataset, and every cell
    that the mask marks is NaN in the stack, whatever the bands hold. *)
Theorem stack_masked_cells (ds : xr.Dataset) (st : list (list pixel))
    (m : list (list bool)) :
  stack ds = Ok st ->
  xr.mask ds = Some m ->
  xr.has_shape st (snd (fst (xr.sizes ds))) (snd (xr.sizes ds)) = true /\
  forall (r c : nat) (mrow : list bool),
    (r < snd (fst (xr.sizes ds)))%nat -> (c < snd (xr.sizes ds))%nat ->
    m !! r = Some mrow -> mrow !! c = Some true ->
    exists row, st !! r = Some row /\ row !! c = Some NaN.
Proof.
  unfold stack, where_mask_False, xr.get_mask. intros H Hm. rewrite Hm in H.
  cbn [mbind result_bind] in H. inversion H; subst st; clear H.
  unfold mean_band. cbn [xr.where_ xr.sizes xr.unw]. split.
  - unfold xr.has_shape. rewrite length_map, length_seq, Nat.eqb_refl. simpl.
    apply forallb_forall. intros row Hrow. apply in_map_iff in Hrow as (r & <- & _).
    rewrite length_map, length_seq. apply Nat.eqb_refl.
  - intros r c mrow Hr Hc Hmr Hmc. eexists. split.
    + change (map ?g ?l) with (g <$> l) at 1.
      rewrite list_lookup_fmap, lookup_seq_lt by done. reflexivity.
    + change (map ?g ?l) with (g <$> l) at 1.
      rewrite list_lookup_fmap, lookup_seq_lt by done. simpl. f_equal.
      apply nanmean_all_nan. rewrite map_map. apply Forall_forall.
      intros v Hv. apply list_elem_of_In, in_map_iff in Hv as (arr & <- & _).
      by eapply getitem2_masked.
Qed.

Lemma stack_masked_cells_witness :
  exists DS DS' masked st row,
    create_dataset scenario_df (store_of image_1 image_2) = Ok DS /\
    add_mask scenario_df (store_of image_1 image_2) west_of_1070 DS = Ok (DS', masked) /\
    stack masked = Ok st /\
    st !! 1%nat = Some row /\ row !! 2%nat = Some NaN.
Proof.
  assert (H : exists DS DS' masked st,
             create_dataset scenario_df (store_of image_1 image_2) = Ok DS
             /\ add_mask scenario_df (store_of image_1 image_2) west_of_1070 DS
                = Ok (DS', masked)
             /\ stack masked = Ok st
             /\ xr.mask masked = Some [[false; false; true]; [false; false; true]]
             /\ xr.sizes masked = (2, 2, 3)%nat)
    by (eexists _, _, _, _; split_and!; vm_compute; reflexivity).
  destruct H as (DS & DS' & masked & st & H1 & H2 & H3 & H4 & H5).
  destruct (stack_masked_cells masked st _ H3 H4) as [_ Hcell].
  destruct (Hcell 1%nat 2%nat [false; false; true]) as (row & Hr & Hc);
    try reflexivity; try (rewrite H5; simpl; lia).
  exists DS, DS', masked, st, row. done.
Defined.

(** ** Parsing a key that follows the naming convention *)













(** ** Dates of the catalog *)

Lemma digit_of_range (ch : ascii) (d : Z) : digit_of ch = Some d -> 0 <= d <= 9.
Proof.
  unfold digit_of. intros H.
  destruct ((48 <=? Z.of_N (N_of_ascii ch)) && (Z.of_N (N_of_ascii ch) <=? 57)) eqn:E;
    [|discriminate].
  apply andb_true_iff in E as [E1 E2]. inversion H. lia.
Qed.

Lemma match_day_range (cs : list ascii) (d : Z) : match_day cs = Some d -> 1 <= d.
Proof.
  unfold match_day. intros H.
  destruct cs as [|c1 [|c2 [|c3 cs]]]; try discriminate.
  - destruct (digit_of c1) as [d1|] eqn:E1; [|discriminate].
    destruct (Z.leb_spec 1 d1); inversion H; lia.
  - destruct (digit_of c1) as [d1|] eqn:E1, (digit_of c2) as [d2|] eqn:E2;
      try discriminate.
    + apply digit_of_range in E1, E2.
      destruct ((d1 =? 3) && (d2 <=? 1)) eqn:T1; [inversion H; lia|].
      destruct ((1 <=? d1) && (d1 <=? 2)) eqn:T2; [inversion H; lia|].
      destruct ((d1 =? 0) && (1 <=? d2)) eqn:T3; [inversion H; lia|]. discriminate.
    + destruct ((c1 =? " ")%char && (1 <=? d2)) eqn:T; [|discriminate].
      inversion H. lia.
Qed.

Lemma match_month_day_range (cs : list ascii) (m d : Z) :
  match_month_day cs = Some (m, d) -> 1 <= m <= 12 /\ 1 <= d.
Proof.
  unfold match_month_day. intros H.
  assert (Hone :
    match cs with
    | c1 :: rest =>
        match digit_of c1 with
        | Some d1 =>
            if 1 <=? d1
            then match match_day rest with
                 | Some d0 => Some (d1, d0)
                 | None => None
                 end
            else None
        | None => None
        end
    | [] => None
    end = Some (m, d) -> 1 <= m <= 12 /\ 1 <= d).
  { destruct cs as [|c1 rest]; [discriminate|].
    destruct (digit_of c1) as [d1|] eqn:E1; [|discriminate].
    apply digit_of_range in E1.
    destruct (Z.leb_spec 1 d1); [|discriminate].
    destruct (match_day rest) as [d0|] eqn:Ed; [|discriminate].
    apply match_day_range in Ed. intros H'; inversion H'. lia. }
  destruct cs as [|c1 [|c2 rest]]; try discriminate; [by apply Hone|].
  destruct (digit_of c1) as [d1|] eqn:E1; [|by apply Hone].
  destruct (digit_of c2) as [d2|] eqn:E2; [|by apply Hone].
  destruct (((d1 =? 1) && (d2 <=? 2)) || ((d1 =? 0) && (1 <=? d2))) eqn:T;
    [|by apply Hone].
  destruct (match_day rest) as [d0|] eqn:Ed; [|by apply Hone].
  apply match_day_range in Ed. apply digit_of_range in E1, E2.
  inversion H; subst. lia.
Qed.

Lemma strptime_valid (s : string) (d : datetime) :
  strptime_Ymd s = Ok d -> valid_date d.
Proof.
  unfold strptime_Ymd. intros H.
  destruct (list_ascii_of_string s) as [|y1 [|y2 [|y3 [|y4 rest]]]]; try discriminate.
  destruct (digit_of y1), (digit_of y2), (digit_of y3), (digit_of y4); try discriminate.
  destruct (match_month_day rest) as [[m dd]|] eqn:Em; [|discriminate].
  apply match_month_day_range in Em.
  destruct ((1 <=? 1000 * z + 100 * z0 + 10 * z1 + z2)
            && (dd <=? days_in_month (1000 * z + 100 * z0 + 10 * z1 + z2) m)) eqn:E;
    [|discriminate].
  apply andb_true_iff in E as [E1 E2]. inversion H; subst d.
  unfold valid_date; simpl. lia.
Qed.

Lemma days_in_year (y : Z) :
  days_before_year (y + 1) = days_before_year y + (if is_leap y then 366 else 365).
Proof.
  unfold days_before_year, is_leap. cbv zeta.
  replace (y + 1 - 1) with y by lia.
  destruct (Z.eqb_spec (y mod 4) 0), (Z.eqb_spec (y mod 100) 0),
    (Z.eqb_spec (y mod 400) 0); cbn [andb orb negb];
    Z.to_euclidean_division_equations; lia.
Qed.

Lemma days_before_year_mono (y1 y2 : Z) :
  y1 <= y2 -> days_before_year y1 <= days_before_year y2.
Proof.
  intros H. replace y2 with (y1 + Z.of_nat (Z.to_nat (y2 - y1))) by lia.
  induction (Z.to_nat (y2 - y1)) as [|n IH]; [by rewrite Z.add_0_r|].
  rewrite Nat2Z.inj_succ. unfold Z.succ. rewrite Z.add_assoc, days_in_year.
  destruct (is_leap _); lia.
Qed.

Lemma month_cases (m : Z) :
  1 <= m <= 12 ->
  m = 1 \/ m = 2 \/ m = 3 \/ m = 4 \/ m = 5 \/ m = 6 \/
  m = 7 \/ m = 8 \/ m = 9 \/ m = 10 \/ m = 11 \/ m = 12.
Proof. lia. Qed.

Ltac month_table :=
  unfold days_before_month;
  repeat match goal with
         | |- context [Z.to_nat ?e] =>
             let n := eval compute in (Z.to_nat e) in
             progress change (Z.to_nat e) with n
         end;
  cbn [days_before_month_aux];
  repeat match goal with
         | |- context [Z.of_nat ?e] =>
             let n := eval compute in (Z.of_nat e) in
             progress change (Z.of_nat e) with n
         end;
  unfold days_in_month in *; cbn [Z.eqb Pos.eqb orb] in *.

(** The day of the year is between 1 and the length of the year, and it
    grows with the month and the day. *)
Lemma day_of_year_bounds (y m d : Z) :
  1 <= m <= 12 -> 1 <= d <= days_in_month y m ->
  1 <= days_before_month y m + d <= (if is_leap y then 366 else 365).
Proof.
  intros Hm Hd.
  destruct (month_cases m Hm) as [->|[->|[->|[->|[->|[->|[->|[->|[->|[->|[->| ->]]]]]]]]]]];
    month_table; destruct (is_leap y); lia.
Qed.

Lemma day_of_year_mono (y m1 d1 m2 d2 : Z) :
  1 <= m1 <= 12 -> 1 <= m2 <= 12 ->
  1 <= d1 <= days_in_month y m1 -> 1 <= d2 <= days_in_month y m2 ->
  m1 < m2 ->
  days_before_month y m1 + d1 < days_before_month y m2 + d2.
Proof.
  intros Hm1 Hm2 Hd1 Hd2 Hlt.
  destruct (month_cases m1 Hm1) as [->|[->|[->|[->|[->|[->|[->|[->|[->|[->|[->| ->]]]]]]]]]]];
    destruct (month_cases m2 Hm2) as [->|[->|[->|[->|[->|[->|[->|[->|[->|[->|[->| ->]]]]]]]]]]];
    try lia; month_table; destruct (is_leap y); lia.
Qed.

Lemma toordinal_lt (d1 d2 : datetime) :
  valid_date d1 -> valid_date d2 -> date_lt d1 d2 -> toordinal d1 < toordinal d2.
Proof.
  intros (Hy1 & Hm1 & Hd1) (Hy2 & Hm2 & Hd2) Hlt. unfold toordinal.
  destruct Hlt as [Hy|[Hy [Hm|[Hm Hd]]]].
  - pose proof (day_of_year_bounds _ _ _ Hm1 Hd1) as B1.
    pose proof (day_of_year_bounds _ _ _ Hm2 Hd2) as B2.
    pose proof (days_in_year (year d1)) as Y.
    pose proof (days_before_year_mono (year d1 + 1) (year d2) ltac:(lia)) as M.
    destruct (is_leap (year d1)); lia.
  - rewrite <- Hy in *.
    pose proof (day_of_year_mono _ _ _ _ _ Hm1 Hm2 Hd1 Hd2 Hm). lia.
  - rewrite Hy, Hm. lia.
Qed.

Lemma date_trichotomy (d1 d2 : datetime) : date_lt d1 d2 \/ d1 = d2 \/ date_lt d2 d1.
Proof.
  destruct d1 as [y1 m1 a1], d2 as [y2 m2 a2]. unfold date_lt; simpl.
  destruct (Z.lt_trichotomy y1 y2) as [?|[->|?]]; [left; lia | | right; right; lia].
  destruct (Z.lt_trichotomy m1 m2) as [?|[->|?]]; [left; lia | | right; right; lia].
  destruct (Z.lt_trichotomy a1 a2) as [?|[->|?]];
    [left; lia | right; left; reflexivity | right; right; lia].
Qed.

Lemma fill_fields_valid (pat : list (string * string * string)) (bits : list string)
    (args parsed : gmap string value) :
  fill_fields pat bits args = Ok parsed ->
  (forall k d, args !! k = Some (VDate d) -> valid_date d) ->
  forall k d, parsed !! k = Some (VDate d) -> valid_date d.
Proof.
  revert bits args. induction pat as [|[[lit field] spec] pat IH]; intros bits args H Ha.
  - inversion H; subst. exact Ha.
  - simpl in H. destruct bits as [|bit bits]; [discriminate|].
    apply (IH _ _ H). intros k d Hk.
    destruct (decide (field = k)) as [->|Hne].
    + rewrite lookup_insert_eq in Hk. unfold convert_field in Hk.
      destruct (String.prefix "%" spec); [|discriminate].
      destruct (strptime_Ymd bit) as [d'|] eqn:Ed; [|discriminate].
      inversion Hk; subst d'. by eapply strptime_valid.
    + rewrite lookup_insert_ne in Hk by done. by eapply Ha.
Qed.

Lemma parse_name_valid (g key : string) (d : datetime) :
  parse_name g key = Ok (VDate d) -> valid_date d.
Proof.
  unfold parse_name, reverse_format. intros H. inv_bind H. inv_bind Hv.
  destruct (v !! key) as [val|] eqn:Ek; [|discriminate]. inversion H; subst val.
  eapply (fill_fields_valid _ _ _ _ Hv); [|exact Ek].
  intros k d' Hk. by rewrite lookup_empty in Hk.
Qed.

Lemma apply_lookup_inv {A B : Type} (g : A -> result B) (l : list A) (bs : list B)
    (i : nat) (b : B) :
  apply g l = Ok bs -> bs !! i = Some b -> exists a, l !! i = Some a /\ g a = Ok b.
Proof.
  intros H Hb. pose proof (apply_length _ _ _ H) as Hlen.
  destruct (lookup_lt_is_Some_2 l i) as [a Ha].
  { rewrite <- Hlen. by eapply lookup_lt_Some. }
  destruct (apply_lookup _ _ _ _ _ H Ha) as (b' & Hb' & Hg).
  exists a. split; [done|]. congruence.
Qed.

(** X15. The sign of the date delta of a catalog row tells the order of
    its two dates: it is negative exactly when the first date is the
    earlier day, zero exactly when the two dates are the same day, and
    positive exactly when the first date is the later day. *)
Theorem catalog_delta_sign (images : list string) (df : DataFrame) (i : nat)
    (d1 d2 : datetime) (delta : timedelta) :
  make_dataframe images = Ok df ->
  date1 df !! i = Some (VDate d1) -> date2 df !! i = Some (VDate d2) ->
  dt df !! i = Some delta ->
  (days delta < 0 <-> date_lt d1 d2) /\
  (days delta = 0 <-> d1 = d2) /\
  (0 < days delta <-> date_lt d2 d1).
Proof.
  intros H H1 H2 Hd. pose proof H as H'. unfold make_dataframe in H'.
  inv_bind H'. inv_bind H'. inv_bind H'. inversion H'; subst df; clear H'.
  cbn [date1 date2 dt] in *.
  destruct (apply_lookup_inv _ _ _ _ _ Hv H1) as (g1 & _ & P1).
  destruct (apply_lookup_inv _ _ _ _ _ Hv0 H2) as (g2 & _ & P2).
  apply parse_name_valid in P1, P2.
  destruct (apply2_lookup _ _ _ _ _ _ Hv1 Hd) as (v1' & v2' & E1 & E2 & Hsub).
  rewrite H1 in E1. rewrite H2 in E2. inversion E1; subst v1'. inversion E2; subst v2'.
  simpl in Hsub. inversion Hsub; subst delta. cbn [days datetime_sub].
  pose proof (toordinal_lt d1 d2 P1 P2) as L12.
  pose proof (toordinal_lt d2 d1 P2 P1) as L21.
  destruct (date_trichotomy d1 d2) as [Hlt|[Heq|Hgt]].
  - specialize (L12 Hlt). split_and!; split; intros; try lia; try done.
    + subst d2. lia.
    + specialize (L21 ltac:(done)). lia.
  - subst d2. split_and!; split; intros; try lia; try done.
    + specialize (L12 ltac:(done)). lia.
    + specialize (L21 ltac:(done)). lia.
  - specialize (L21 Hgt). split_and!; split; intros; try lia; try done.
    + specialize (L12 ltac:(done)). lia.
    + subst d2. lia.
Qed.

Lemma catalog_delta_sign_witness :
  make_dataframe scenario_keys = Ok scenario_df /\
  (days (mk_timedelta (-14)) < 0 <-> date_lt (mk_datetime 2020 1 1) (mk_datetime 2020 1 15)).
Proof.
  assert (H : make_dataframe scenario_keys = Ok scenario_df) by (vm_compute; reflexivity).
  split; [exact H|].
  apply (catalog_delta_sign scenario_keys scenario_df 0 _ _ _ H); reflexivity.
Defined.

(** ** The stages composed *)

(** X16. The mask applier accepts every dataset that the loader built
    from the same catalog and store, provided band 1 of the first image
    has the shape its header announces: the water mask then has the
    spatial shape of the dataset, the dataset gains the mask layer and
    nothing else changes, and the masked dataset has the same sizes. *)
Theorem add_mask_after_create_dataset (df : DataFrame)
    (store : gmap string rasterio.DatasetReader) (gf : string -> Q -> Q -> bool)
    (DS : xr.Dataset) :
  create_dataset df store = Ok DS ->
  (forall u src, url df !! 0%nat = Some u -> store !! u = Some src ->
     exists arr, rasterio.bands src !! 0%nat = Some arr /\
       xr.has_shape arr (rasterio.height src) (rasterio.width src) = true) ->
  exists DS' masked w,
    add_mask df store gf DS = Ok (DS', masked) /\
    water df store gf = Ok w /\
    xr.mask DS' = Some w /\
    xr.unw DS' = xr.unw DS /\ xr.band DS' = xr.band DS /\
    xr.x DS' = xr.x DS /\ xr.y DS' = xr.y DS /\
    xr.sizes DS' = xr.sizes DS /\ xr.sizes masked = xr.sizes DS /\
    xr.mask masked = Some w.
Proof.
  intros Hds Hband.
  destruct (create_dataset_inv _ _ _ Hds)
    as (s0 & rest & Hst & _ & _ & _ & Hsz & _).
  destruct (url df) as [|u0 us] eqn:Hurl; [inversion Hst|].
  apply Forall2_cons in Hst as [Hu0 _].
  destruct (Hband u0 s0 eq_refl Hu0) as (arr & Harr & Hshape).
  assert (Hw : exists w, water df store gf = Ok w /\
                 xr.has_shape w (rasterio.height s0) (rasterio.width s0) = true).
  { unfold water, url_iloc. rewrite Hurl. cbn [lookup list_lookup mbind result_bind].
    unfold rasterio.open. rewrite Hu0. cbn [mbind result_bind].
    unfold rasterio.mask, rasterio.read_band. cbn [rasterio.bands rasterio.crs
      rasterio.nodata]. rewrite Harr. cbn [mbind result_bind].
    eexists. split; [reflexivity|].
    apply map_has_shape, zip_with_has_shape; [|exact Hshape].
    apply (geometry_mask_shape _
             {| rasterio.name := u0; rasterio.driver := rasterio.driver s0;
                rasterio.dtype := rasterio.dtype s0; rasterio.nodata := rasterio.nodata s0;
                rasterio.width := rasterio.width s0; rasterio.height := rasterio.height s0;
                rasterio.count := rasterio.count s0; rasterio.crs := rasterio.crs s0;
                rasterio.transform := rasterio.transform s0;
                rasterio.blockxsize := rasterio.blockxsize s0;
                rasterio.blockysize := rasterio.blockysize s0;
                rasterio.tiled := rasterio.tiled s0;
                rasterio.compress := rasterio.compress s0;
                rasterio.interleave := rasterio.interleave s0;
                rasterio.bands := rasterio.bands s0 |}). }
  destruct Hw as (w & Hw & Hws).
  exists {| xr.sizes := xr.sizes DS; xr.band := xr.band DS; xr.y := xr.y DS;
            xr.x := xr.x DS; xr.mask := Some w; xr.unw := xr.unw DS;
            xr.attrs := xr.attrs DS |}.
  eexists. exists w. split.
  - unfold add_mask. rewrite Hw. cbn [mbind result_bind].
    unfold xr.set_mask. rewrite Hsz. cbn [fst snd]. rewrite Hws.
    cbn [mbind result_bind]. unfold where_mask_False, xr.get_mask.
    cbn [xr.mask mbind result_bind]. reflexivity.
  - rewrite Hsz. cbn [xr.mask xr.unw xr.band xr.x xr.y xr.sizes xr.where_]. done.
Qed.

Lemma add_mask_after_create_dataset_witness :
  exists DS DS' masked,
    create_dataset scenario_df (store_of image_1 image_2) = Ok DS /\
    add_mask scenario_df (store_of image_1 image_2) west_of_1070 DS = Ok (DS', masked) /\
    xr.sizes masked = xr.sizes DS.
Proof.
  assert (H : exists DS, create_dataset scenario_df (store_of image_1 image_2) = Ok DS)
    by (eexists; vm_compute; reflexivity).
  destruct H as [DS H].
  destruct (add_mask_after_create_dataset scenario_df (store_of image_1 image_2)
              west_of_1070 DS H) as (DS' & masked & w & H1 & _ & _ & _ & _ & _ & _ & _ & H9 & _).
  - intros u src Hu Hs. inversion Hu; subst u. vm_compute in Hs. inversion Hs; subst src.
    eexists. split; reflexivity.
  - exists DS, DS', masked. done.
Defined.

(** X17. The time series of a masked cell is missing on every band: when
    the mask marks the cell that point extraction selects on the masked
    dataset, every value of the series is NaN. *)
Theorem time_series_of_masked_cell (ds masked : xr.Dataset) (m : list (list bool))
    (xcen ycen : Q) (ts : xr.PointSeries) (mrow : list bool) :
  where_mask_False ds = Ok masked ->
  xr.mask ds = Some m ->
  time_series masked xcen ycen = Ok ts ->
  m !! xr.ps_iy ts = Some mrow -> mrow !! xr.ps_ix ts = Some true ->
  length (xr.ps_unw ts) = length (xr.unw ds) /\
  Forall (fun v => v = NaN) (xr.ps_unw ts).
Proof.
  unfold where_mask_False, xr.get_mask. intros Hm Hmask Hts Hr Hc.
  rewrite Hmask in Hm. cbn [mbind result_bind] in Hm. inversion Hm; subst masked; clear Hm.
  unfold time_series, xr.sel_nearest in Hts. cbn [xr.where_ xr.x xr.y xr.unw xr.band] in Hts.
  destruct (xr.x ds) as [xs|]; [|discriminate].
  destruct (xr.y ds) as [ys|]; [|discriminate].
  inv_bind Hts. inv_bind Hts. inversion Hts; subst ts; clear Hts.
  cbn [xr.ps_unw xr.ps_iy xr.ps_ix] in *. split; [by rewrite !length_map|].
  rewrite map_map. apply Forall_forall. intros p Hp.
  apply list_elem_of_In, in_map_iff in Hp as (arr & <- & _).
  by eapply getitem2_masked.
Qed.

Lemma time_series_of_masked_cell_witness :
  exists DS DS' masked ts,
    create_dataset scenario_df (store_of image_1 image_2) = Ok DS /\
    add_mask scenario_df (store_of image_1 image_2) west_of_1070 DS = Ok (DS', masked) /\
    time_series masked 1080 4960 = Ok ts /\
    xr.ps_unw ts = [NaN; NaN].
Proof.
  assert (H : exists DS DS' masked ts,
             create_dataset scenario_df (store_of image_1 image_2) = Ok DS
             /\ add_mask scenario_df (store_of image_1 image_2) west_of_1070 DS
                = Ok (DS', masked)
             /\ where_mask_False DS' = Ok masked
             /\ xr.mask DS' = Some [[false; false; true]; [false; false; true]]
             /\ time_series masked 1080 4960 = Ok ts
             /\ xr.ps_iy ts = 1%nat /\ xr.ps_ix ts = 2%nat
             /\ xr.ps_unw ts = [NaN; NaN])
    by (eexists _, _, _, _; split_and!; vm_compute; reflexivity).
  destruct H as (DS & DS' & masked & ts & H1 & H2 & H3 & H4 & H5 & H6 & H7 & H8).
  destruct (time_series_of_masked_cell DS' masked _ 1080 4960 ts [false; false; true]
              H3 H4 H5) as [_ Hall].
  - by rewrite H6.
  - by rewrite H7.
  - exists DS, DS', masked, ts. done.
Defined.






(** ** Selection of one band *)



